(** * Meet-Me-Halfway: route midpoint and point-of-interest ranking

    A shallow embedding of the numeric core of the application:

    - [getMidpoint] of [results-map.tsx] (the walk along a route polyline
      with its inline haversine distance and linear interpolation);
    - [calculateMidpoint] of [app-structure.md] (the great-circle midpoint
      of two coordinates);
    - the per-POI travel-time derivation, [getPoiCategory] and the
      filter/sort pipeline [sortedAndFilteredPois] of the points-of-interest
      component.

    JavaScript numbers are kept abstract: the code is written once over an
    interface of the operators and [Math] functions it uses, so every
    statement that only depends on the control flow holds for any number
    implementation (IEEE doubles with NaN included).  Statements that need
    the laws of arithmetic are made for the instance over the real numbers;
    binary64 floats give a second instance for the arithmetic-only code. *)

From Stdlib Require Import Floats.
From Stdlib Require Import List ZArith Bool String Ascii Lia.
From Stdlib Require Import Reals Lra.
From Stdlib Require Import Permutation Sorted.
From Stdlib Require Import DecimalString.
Import ListNotations.

Set Implicit Arguments.

(** ** JavaScript numbers *)

(** The operators the sources apply to numbers.  [lit] is an integer
    literal, [gt] is [>], [truthy] is the coercion of a number in a boolean
    context ([x && ...], [x || 0]): false exactly on zero and NaN. *)
Class JsNumber (num : Type) : Type := {
  lit : Z -> num;
  add : num -> num -> num;
  sub : num -> num -> num;
  mul : num -> num -> num;
  div : num -> num -> num;
  gt : num -> num -> bool;
  truthy : num -> bool;
  Math_abs : num -> num
}.

(** The part of the [Math] object used by the geodesic code. *)
Class JsMath (num : Type) : Type := {
  Math_PI : num;
  Math_sin : num -> num;
  Math_cos : num -> num;
  Math_sqrt : num -> num;
  Math_atan2 : num -> num -> num
}.

Arguments lit {num _} _%_Z.

Declare Scope js_scope.
Delimit Scope js_scope with js.
Infix "+" := add : js_scope.
Infix "-" := sub : js_scope.
Infix "*" := mul : js_scope.
Infix "/" := div : js_scope.
Infix ">?" := gt (at level 70, no associativity) : js_scope.

(** A call either completes normally or throws.  In [getMidpoint] the only
    exception possible is the [TypeError] of reading a property of
    [undefined]; for the server action [getRouteAction] it is whatever the
    [catch] clause of its caller receives. *)
Inductive completion (A : Type) : Type :=
| Normal (v : A)
| Throw.

Arguments Normal {A} v.
Arguments Throw {A}.

(** [interface Point { lat: number; lng: number }] of the midpoint action;
    [getMidpoint] returns object literals of the same shape. *)
Record Point (num : Type) : Type := { lat : num; lng : num }.

(** ** The route midpoint: [getMidpoint] of [results-map.tsx] *)

Section RouteMidpoint.
Context {num : Type} `{JsNumber num} `{JsMath num}.
Local Open Scope js_scope.

(** [interface RouteData]; a coordinate is the array [[lon, lat]]. *)
Record Geometry : Type := { coordinates : list (num * num) }.

Record RouteData : Type := {
  geometry : Geometry;
  duration : num;
  distance : num
}.

(** Lines 62-77: the distance between two consecutive points by the
    haversine formula.  [point[0]] is the longitude, [point[1]] the
    latitude. *)
Definition segmentDistance (point1 point2 : num * num) : num :=
  let lat1 := snd point1 in
  let lon1 := fst point1 in
  let lat2 := snd point2 in
  let lon2 := fst point2 in
  let R := lit 6371000 in
  let phi1 := (lat1 * Math_PI) / lit 180 in
  let phi2 := (lat2 * Math_PI) / lit 180 in
  let dphi := ((lat2 - lat1) * Math_PI) / lit 180 in
  let dlambda := ((lon2 - lon1) * Math_PI) / lit 180 in
  let a :=
    Math_sin (dphi / lit 2) * Math_sin (dphi / lit 2) +
    Math_cos phi1 * Math_cos phi2 * Math_sin (dlambda / lit 2)
      * Math_sin (dlambda / lit 2) in
  let c := lit 2 * Math_atan2 (Math_sqrt a) (Math_sqrt (lit 1 - a)) in
  R * c.

(** Lines 81-84: the point returned on the segment that crosses the
    half distance. *)
Definition midpointOnSegment (totalDistance currentDistance : num)
    (point1 point2 : num * num) : Point num :=
  let lat1 := snd point1 in
  let lon1 := fst point1 in
  let lat2 := snd point2 in
  let lon2 := fst point2 in
  let ratio :=
    (totalDistance / lit 2 - currentDistance) / segmentDistance point1 point2 in
  {| lat := lat1 + ratio * (lat2 - lat1);
     lng := lon1 + ratio * (lon2 - lon1) |}.

(** The [for] loop of lines 57-89, by recursion on the points still
    ahead: [coordinates] is the polyline from index [i] on and
    [currentDistance] the distance accumulated so far.  [Some] is the
    [return] inside the loop, [None] the loop running to its end.  (The
    counter [midpointIndex] is written but never read.) *)
Fixpoint walkSegments (totalDistance currentDistance : num)
    (coordinates : list (num * num)) : option (Point num) :=
  match coordinates with
  | point1 :: ((point2 :: _) as rest) =>
      let segmentDistance := segmentDistance point1 point2 in
      if currentDistance + segmentDistance >? totalDistance / lit 2
      then Some (midpointOnSegment totalDistance currentDistance point1 point2)
      else walkSegments totalDistance (currentDistance + segmentDistance) rest
  | _ => None
  end.

(** [getMidpoint(route)].  [None] as argument is a [null] or [undefined]
    route, [Normal None] the result [null].  After the loop the middle
    coordinate is read; on an empty array [coordinates[0]] is [undefined]
    and reading its element [1] throws. *)
Definition getMidpoint (route : option RouteData) : completion (option (Point num)) :=
  match route with
  | None => Normal None
  | Some route =>
      let coordinates := coordinates (geometry route) in
      let totalDistance := distance route in
      match walkSegments totalDistance (lit 0) coordinates with
      | Some midpoint => Normal (Some midpoint)
      | None =>
          let middleIndex := Nat.div (List.length coordinates) 2 in
          match nth_error coordinates middleIndex with
          | Some middle => Normal (Some {| lat := snd middle; lng := fst middle |})
          | None => Throw
          end
      end
  end.

(** *** The walk, described by segment index

    The quantities of the loop at iteration [i], defined without the
    loop, against which [getMidpoint] is specified. *)

(** The length of segment [i], from point [i] to point [i + 1]. *)
Definition segmentLength (coordinates : list (num * num)) (i : nat) : num :=
  match nth_error coordinates i, nth_error coordinates (S i) with
  | Some point1, Some point2 => segmentDistance point1 point2
  | _, _ => lit 0
  end.

(** The value of [currentDistance] when iteration [i] starts: the
    lengths of segments [0 .. i-1] added from the left to [0]. *)
Definition distanceBefore (coordinates : list (num * num)) (i : nat) : num :=
  fold_left add (map (segmentLength coordinates) (seq 0 i)) (lit 0).

(** The test of line 79 at iteration [i]. *)
Definition crossesHalf (route : RouteData) (i : nat) : bool :=
  let coordinates := coordinates (geometry route) in
  distanceBefore coordinates i + segmentLength coordinates i
    >? distance route / lit 2.

End RouteMidpoint.

Arguments Geometry num : clear implicits.
Arguments RouteData num : clear implicits.

(** ** The geometric midpoint: [calculateMidpoint] of [app-structure.md] *)

Section GeometricMidpoint.
Context {num : Type} `{JsNumber num} `{JsMath num}.
Local Open Scope js_scope.

(** Modelled from the spec: [toRadians] and [toDegrees] are called by
    [calculateMidpoint] but declared nowhere in the sources; the spec says
    the points are converted to radians and the result back to degrees. *)
Definition toRadians (degrees : num) : num := (degrees * Math_PI) / lit 180.

(** Modelled from the spec: see [toRadians]. *)
Definition toDegrees (radians : num) : num := (radians * lit 180) / Math_PI.

Record MidpointResult : Type := {
  midpoint : Point num;
  travelTimeA : num;
  travelTimeB : num
}.

(** [getTravelTime] asks the directions service over HTTP; its answer is a
    parameter of the model (a request that fails is outside it). *)
Variable getTravelTime : Point num -> Point num -> num.

Definition calculateMidpoint (start end_ : Point num) : MidpointResult :=
  (* Convert to radians *)
  let lat1 := toRadians (lat start) in
  let lon1 := toRadians (lng start) in
  let lat2 := toRadians (lat end_) in
  let lon2 := toRadians (lng end_) in
  (* Calculate midpoint *)
  let Bx := Math_cos lat2 * Math_cos (lon2 - lon1) in
  let By := Math_cos lat2 * Math_sin (lon2 - lon1) in
  let midLat :=
    Math_atan2
      (Math_sin lat1 + Math_sin lat2)
      (Math_sqrt ((Math_cos lat1 + Bx) * (Math_cos lat1 + Bx) + By * By)) in
  let midLng := lon1 + Math_atan2 By (Math_cos lat1 + Bx) in
  let timeA :=
    getTravelTime start {| lat := toDegrees midLat; lng := toDegrees midLng |} in
  let timeB :=
    getTravelTime end_ {| lat := toDegrees midLat; lng := toDegrees midLng |} in
  {| midpoint := {| lat := toDegrees midLat; lng := toDegrees midLng |};
     travelTimeA := timeA;
     travelTimeB := timeB |}.

End GeometricMidpoint.

Arguments MidpointResult num : clear implicits.

(** ** Points of interest: scoring, category, filter and sort *)

(** [String.prototype.toLowerCase] on the ASCII letters; type tags are
    OpenStreetMap keys, and the other characters of a string are left as
    they are. *)
Definition toLowerCaseChar (c : ascii) : ascii :=
  let n := nat_of_ascii c in
  if (65 <=? n)%nat && (n <=? 90)%nat then ascii_of_nat (n + 32) else c.

Fixpoint toLowerCase (s : string) : string :=
  match s with
  | EmptyString => EmptyString
  | String c rest => String (toLowerCaseChar c) (toLowerCase rest)
  end.

(** [Array.prototype.includes] on an array of strings. *)
Definition includes (array : list string) (x : string) : bool :=
  existsb (String.eqb x) array.

Inductive SortOption : Type :=
| name_
| distanceFromStart_
| distanceFromEnd_
| totalTime
| timeDifference.

Inductive FilterOption : Type := all | food | activities | lodging | other.

Definition FilterOption_eqb (a b : FilterOption) : bool :=
  match a, b with
  | all, all | food, food | activities, activities
  | lodging, lodging | other, other => true
  | _, _ => false
  end.

(** [type MaxTimeDifference = 5 | 10 | 15 | 30 | 999], in minutes. *)
Inductive MaxTimeDifference : Type := Max5 | Max10 | Max15 | Max30 | Max999.

Definition minutes (m : MaxTimeDifference) : Z :=
  match m with
  | Max5 => 5
  | Max10 => 10
  | Max15 => 15
  | Max30 => 30
  | Max999 => 999
  end.

(** Group POIs by category for better organization. *)
Definition getPoiCategory (type : string) : FilterOption :=
  let type := toLowerCase type in
  if includes ["restaurant"; "cafe"; "bar"; "pub"; "fast_food"]%string type
  then food
  else if includes ["park"; "cinema"; "theatre"; "theater"; "museum"]%string type
  then activities
  else if includes ["hotel"; "hostel"; "guest_house"]%string type
  then lodging
  else other.

(** The category mapping as the specification words it, for comparison
    with [getPoiCategory]: the listed tags, anything else is [other]. *)
Definition specCategory (type : string) : FilterOption :=
  if includes ["restaurant"; "cafe"; "bar"; "pub"; "fast_food"]%string type
  then food
  else if includes ["park"; "cinema"; "theatre"; "museum"]%string type
  then activities
  else if includes ["hotel"; "hostel"; "guest_house"]%string type
  then lodging
  else other.

(** The fields of a [PoiResponse] that scoring, filtering and sorting read. *)
Record PoiResponse : Type := {
  name : string;
  type : string;
  osm_id : option string
}.

Section PointsOfInterest.
Context {num : Type} `{JsNumber num}.
Local Open Scope js_scope.

(** [interface PoiWithTravelTimes extends PoiResponse]; an optional field
    that is [undefined] is [None]. *)
Record PoiWithTravelTimes : Type := {
  response : PoiResponse;
  travelTimeFromStart : option num;
  travelTimeFromEnd : option num;
  distanceFromStart : option num;
  distanceFromEnd : option num;
  totalTravelTime : option num;
  travelTimeDifference : option num;
  isFavorite : option bool
}.

(** What [getRouteAction] resolves to: [data] is read with [?.]. *)
Record ActionState : Type := {
  isSuccess : bool;
  data : option (RouteData num)
}.

(** A [PoiResponse] seen as a [PoiWithTravelTimes]: none of the added
    fields is set. *)
Definition unscored (poi : PoiResponse) : PoiWithTravelTimes :=
  {| response := poi;
     travelTimeFromStart := None; travelTimeFromEnd := None;
     distanceFromStart := None; distanceFromEnd := None;
     totalTravelTime := None; travelTimeDifference := None;
     isFavorite := None |}.

(** The callback of [pois.map] in [calculateTravelTimes] (lines 132-189),
    given what the two calls of [getRouteAction] came to.  A call that
    throws ends the [try] block: the [catch] clause returns [poi]. *)
Definition withTravelTimes (favorites : list string) (poi : PoiResponse)
    (startRoute endRoute : completion ActionState) : PoiWithTravelTimes :=
  match startRoute, endRoute with
  | Normal startRoute, Normal endRoute =>
      let travelTimeFromStart :=
        if isSuccess startRoute then option_map (@duration num) (data startRoute)
        else None in
      let travelTimeFromEnd :=
        if isSuccess endRoute then option_map (@duration num) (data endRoute)
        else None in
      let distanceFromStart :=
        if isSuccess startRoute then option_map (@distance num) (data startRoute)
        else None in
      let distanceFromEnd :=
        if isSuccess endRoute then option_map (@distance num) (data endRoute)
        else None in
      let totalTravelTime :=
        match travelTimeFromStart, travelTimeFromEnd with
        | Some travelTimeFromStart, Some travelTimeFromEnd =>
            Some (travelTimeFromStart + travelTimeFromEnd)
        | _, _ => None
        end in
      let travelTimeDifference :=
        match travelTimeFromStart, travelTimeFromEnd with
        | Some travelTimeFromStart, Some travelTimeFromEnd =>
            Some (Math_abs (travelTimeFromEnd - travelTimeFromStart))
        | _, _ => None
        end in
      {| response := poi;
         travelTimeFromStart := travelTimeFromStart;
         travelTimeFromEnd := travelTimeFromEnd;
         distanceFromStart := distanceFromStart;
         distanceFromEnd := distanceFromEnd;
         totalTravelTime := totalTravelTime;
         travelTimeDifference := travelTimeDifference;
         isFavorite :=
           Some (includes favorites
                   (match osm_id poi with Some id => id | None => ""%string end)) |}
  | _, _ => unscored poi
  end.

(** [calculateTravelTimes]: the list handed to [setPoisWithTravelTimes].
    The two functions are the outcomes of [getRouteAction] from the start
    to a POI and from a POI to the end. *)
Definition calculateTravelTimes (favorites : list string)
    (routeFromStart routeToEnd : PoiResponse -> completion ActionState)
    (pois : list PoiResponse) : list PoiWithTravelTimes :=
  map (fun poi => withTravelTimes favorites poi (routeFromStart poi) (routeToEnd poi))
      pois.

(** The callback of [.filter] (lines 289-310). *)
Definition keepPoi (activeTab : FilterOption) (maxTimeDifference : MaxTimeDifference)
    (showOnlyFavorites : bool) (poi : PoiWithTravelTimes) : bool :=
  (* Filter by category *)
  if negb (FilterOption_eqb activeTab all)
     && negb (FilterOption_eqb (getPoiCategory (type (response poi))) activeTab)
  then false
  (* Filter by time difference *)
  else if
    match travelTimeDifference poi with
    | Some difference =>
        truthy difference && (difference / lit 60 >? lit (minutes maxTimeDifference))
    | None => false
    end
  then false
  (* Filter favorites *)
  else if showOnlyFavorites
          && negb (match isFavorite poi with Some b => b | None => false end)
  then false
  else true.

(** [x || 0] on an optional number. *)
Definition orZero (x : option num) : num :=
  match x with
  | Some v => if truthy v then v else lit 0
  | None => lit 0
  end.

(** [String.prototype.localeCompare] depends on the host's locale. *)
Variable localeCompare : string -> string -> num.

(** The comparator of [.sort] (lines 311-326). *)
Definition comparePois (sortBy : SortOption) (a b : PoiWithTravelTimes) : num :=
  match sortBy with
  | name_ => localeCompare (name (response a)) (name (response b))
  | distanceFromStart_ => orZero (distanceFromStart a) - orZero (distanceFromStart b)
  | distanceFromEnd_ => orZero (distanceFromEnd a) - orZero (distanceFromEnd b)
  | totalTime => orZero (totalTravelTime a) - orZero (totalTravelTime b)
  | timeDifference => orZero (travelTimeDifference a) - orZero (travelTimeDifference b)
  end.

(** [Array.prototype.sort] with a comparator: the sort is stable, and [a]
    comes after [b] when the comparator is positive on [(a, b)].  For a
    comparator that orders the elements consistently this fixes the result;
    it is computed here by insertion from the right end, which moves an
    element only past elements it compares positive with. *)
Fixpoint insertBy {A : Type} (comparator : A -> A -> num) (x : A) (sorted : list A)
    : list A :=
  match sorted with
  | [] => [x]
  | y :: rest =>
      if comparator x y >? lit 0 then y :: insertBy comparator x rest
      else x :: y :: rest
  end.

Definition sort {A : Type} (comparator : A -> A -> num) (array : list A) : list A :=
  fold_right (insertBy comparator) [] array.

(** Lines 288-326. *)
Definition sortedAndFilteredPois (activeTab : FilterOption)
    (maxTimeDifference : MaxTimeDifference) (showOnlyFavorites : bool)
    (sortBy : SortOption) (poisWithTravelTimes : list PoiWithTravelTimes)
    : list PoiWithTravelTimes :=
  sort (comparePois sortBy)
       (filter (keepPoi activeTab maxTimeDifference showOnlyFavorites)
               poisWithTravelTimes).

(** The key a numeric sort option reads ([name_] has none). *)
Definition sortKey (sortBy : SortOption) (poi : PoiWithTravelTimes) : option num :=
  match sortBy with
  | name_ => None
  | distanceFromStart_ => distanceFromStart poi
  | distanceFromEnd_ => distanceFromEnd poi
  | totalTime => totalTravelTime poi
  | timeDifference => travelTimeDifference poi
  end.

End PointsOfInterest.

Arguments PoiWithTravelTimes num : clear implicits.
Arguments ActionState num : clear implicits.

(** ** Numbers as real numbers

    The idealised reading of the arithmetic: no rounding, no NaN, no
    infinities.  Division by zero and the square root of a negative number,
    which are NaN or infinite in JavaScript, take the library's conventional
    values here; no statement below relies on them. *)

Definition Rgtb (x y : R) : bool := if Rgt_dec x y then true else false.

Definition Rtruthy (x : R) : bool := if Req_dec_T x 0 then false else true.

(** [Math.atan2(y, x)]: the angle in (-PI, PI] of the point [(x, y)], and
    [0] at the origin. *)
Definition atan2 (y x : R) : R :=
  if Rlt_dec 0 x then atan (y / x)
  else if Rlt_dec x 0 then
    if Rle_dec 0 y then atan (y / x) + PI else atan (y / x) - PI
  else if Rlt_dec 0 y then PI / 2
  else if Rlt_dec y 0 then - (PI / 2)
  else 0.

#[export] Instance R_JsNumber : JsNumber R := {
  lit := IZR;
  add := Rplus;
  sub := Rminus;
  mul := Rmult;
  div := Rdiv;
  gt := Rgtb;
  truthy := Rtruthy;
  Math_abs := Rabs
}.

#[export] Instance R_JsMath : JsMath R := {
  Math_PI := PI;
  Math_sin := sin;
  Math_cos := cos;
  Math_sqrt := sqrt;
  Math_atan2 := atan2
}.

(** ** Numbers as binary64 floats

    The operators of [JsNumber] on the kernel's IEEE 754 doubles, which are
    JavaScript's numbers; the code without trigonometry runs on them. *)

Definition float_lit (z : Z) : float :=
  match z with
  | Z0 => PrimFloat.zero
  | Zpos _ => PrimFloat.of_uint63 (Uint63.of_Z z)
  | Zneg p => PrimFloat.opp (PrimFloat.of_uint63 (Uint63.of_Z (Zpos p)))
  end.

Definition float_truthy (x : float) : bool :=
  negb (PrimFloat.eqb x PrimFloat.zero || PrimFloat.is_nan x).

#[export] Instance float_JsNumber : JsNumber float := {
  lit := float_lit;
  add := PrimFloat.add;
  sub := PrimFloat.sub;
  mul := PrimFloat.mul;
  div := PrimFloat.div;
  gt := fun x y => PrimFloat.ltb y x;
  truthy := float_truthy;
  Math_abs := PrimFloat.abs
}.

(** Routes used as concrete inputs: half of the equator as one segment,
    with a plausible and with an overstated total distance, and a route of
    a single point. *)
Definition halfEquator (totalDistance : R) : RouteData R :=
  {| geometry := {| coordinates := [(0, 0); (180, 0)] |};
     duration := 0;
     distance := totalDistance |}%R.

Definition onePointRoute : RouteData R :=
  {| geometry := {| coordinates := [(1, 2)] |}; duration := 0; distance := 0 |}%R.


(** Two points on the equator, 270 degrees of longitude apart when going
    east from the second to the first. *)
Definition equator90E : Point R := {| lat := 0; lng := 90 |}%R.



(** A directions service that always answers [0]. *)
Definition noTravelTime (from to : Point R) : R := 0%R.

(** Inputs on binary64 numbers for the scoring and ranking code: a route
    answer with a duration and a distance, and a scored POI with given
    distance from the start and time difference. *)
Definition routeAnswer (seconds meters : float) : completion (ActionState float) :=
  Normal {| isSuccess := true;
            data := Some {| geometry := {| coordinates := [] |};
                            duration := seconds;
                            distance := meters |} |}.

Definition failedAnswer : completion (ActionState float) :=
  Normal {| isSuccess := false; data := None |}.

Definition cafe (n : string) : PoiResponse :=
  {| name := n; type := "cafe"; osm_id := None |}.

Definition scoredCafe (n : string) (fromStart difference : option float)
    : PoiWithTravelTimes float :=
  {| response := cafe n;
     travelTimeFromStart := None; travelTimeFromEnd := None;
     distanceFromStart := fromStart; distanceFromEnd := None;
     totalTravelTime := None; travelTimeDifference := difference;
     isFavorite := Some false |}.

(** [localeCompare] of a host that finds all names equal. *)
Definition sameName (a b : string) : float := 0%float.

(** Ascending order of a real-valued key. *)
Definition ascendingBy {A : Type} (key : A -> R) (a b : A) : Prop :=
  (key a <= key b)%R.

(** The same kind of input over the reals. *)
Definition scoredCafeR (n : string) (fromStart : option R) : PoiWithTravelTimes R :=
  {| response := cafe n;
     travelTimeFromStart := None; travelTimeFromEnd := None;
     distanceFromStart := fromStart; distanceFromEnd := None;
     totalTravelTime := None; travelTimeDifference := None;
     isFavorite := Some false |}.

Definition sameNameR (a b : string) : R := 0%R.

(** A route that stays on one point. *)
Definition standingRoute : RouteData R :=
  {| geometry := {| coordinates := [(1, 2); (1, 2); (1, 2)] |};
     duration := 0;
     distance := 0 |}%R.

(** ** Favourites of the points-of-interest component *)

(** [toggleFavorite(poiId)]: the update handed to [setFavorites]
    (lines 328-336). *)
Definition toggleFavorite (poiId : string) (prev : list string) : list string :=
  if includes prev poiId
  then filter (fun id => negb (String.eqb id poiId)) prev
  else prev ++ [poiId].

(** The click on the star of a POI card: [if (poi.osm_id)
    toggleFavorite(poi.osm_id)]; an absent or empty id is falsy. *)
Definition clickStar (poi : PoiResponse) (favorites : list string) : list string :=
  match osm_id poi with
  | Some id => if String.eqb id "" then favorites else toggleFavorite id favorites
  | None => favorites
  end.

(** The item [mmh-favorites] of the browser's local storage as the
    component reads it: no item (or the empty text, which the test
    [if (savedFavorites)] treats alike), a text that [JSON.parse] refuses,
    or the text of an array of strings ([JSON.parse] gives back the array
    that [JSON.stringify] wrote). *)
Inductive savedFavorites : Type :=
| NotSaved
| Unparsable
| Saved (favorites : list string).

(** The effect of lines 118-122, run when [favorites] has changed: the
    item is written only for a non-empty array. *)
Definition saveFavorites (favorites : list string) (storage : savedFavorites)
    : savedFavorites :=
  if (0 <? List.length favorites)%nat then Saved favorites else storage.

(** The effect of lines 104-115, run when the component mounts: the state
    [favorites] after it. *)
Definition loadFavorites (storage : savedFavorites) (favorites : list string)
    : list string :=
  match storage with
  | Saved saved => saved
  | NotSaved | Unparsable => favorites
  end.

(** One toggle in a mounted component: the new state and the storage after
    the save effect has run. *)
Definition toggleAndSave (poiId : string) (session : list string * savedFavorites)
    : list string * savedFavorites :=
  let favorites := toggleFavorite poiId (fst session) in
  (favorites, saveFavorites favorites (snd session)).

(** A POI with an id, and the test that a real-valued key has a given
    value. *)
Definition bakery : PoiResponse :=
  {| name := "bakery"; type := "cafe"; osm_id := Some "42"%string |}.

Definition keyIs {A : Type} (key : A -> R) (value : R) (a : A) : bool :=
  if Req_dec_T (key a) value then true else false.

(** A successful route answer over the reals. *)
Definition routeAnswerR (seconds meters : R) : completion (ActionState R) :=
  Normal {| isSuccess := true;
            data := Some {| geometry := {| coordinates := [] |};
                            duration := seconds;
                            distance := meters |} |}.

(** ** The map wrapper: [Map] of the results page *)

(** [Number.isFinite]. *)
Class JsFinite (num : Type) : Type := { Number_isFinite : num -> bool }.

#[export] Instance float_JsFinite : JsFinite float := {
  Number_isFinite := PrimFloat.is_finite
}.

Section MapWrapper.
Context {num : Type} `{JsNumber num} `{JsFinite num}.

(** The coordinates among the properties of [Map]; the other properties
    are handed on as they are. *)
Record MapProps : Type := {
  startLat : num;
  startLng : num;
  endLat : num;
  endLng : num;
  midpointLat : num;
  midpointLng : num;
  alternateMidpointLat : num;
  alternateMidpointLng : num
}.

(** [Map(props)]: the coordinates it hands to [MapComponent]. *)
Definition Map (props : MapProps) : MapProps :=
  (* Ensure all coordinates are valid numbers *)
  let validStartLat :=
    if Number_isFinite (startLat props) then startLat props else lit 0 in
  let validStartLng :=
    if Number_isFinite (startLng props) then startLng props else lit 0 in
  let validEndLat :=
    if Number_isFinite (endLat props) then endLat props else lit 0 in
  let validEndLng :=
    if Number_isFinite (endLng props) then endLng props else lit 0 in
  let validMidpointLat :=
    if Number_isFinite (midpointLat props) then midpointLat props
    else validStartLat in
  let validMidpointLng :=
    if Number_isFinite (midpointLng props) then midpointLng props
    else validStartLng in
  let validAltMidpointLat :=
    if Number_isFinite (alternateMidpointLat props) then alternateMidpointLat props
    else validMidpointLat in
  let validAltMidpointLng :=
    if Number_isFinite (alternateMidpointLng props) then alternateMidpointLng props
    else validMidpointLng in
  {| startLat := validStartLat;
     startLng := validStartLng;
     endLat := validEndLat;
     endLng := validEndLng;
     midpointLat := validMidpointLat;
     midpointLng := validMidpointLng;
     alternateMidpointLat := validAltMidpointLat;
     alternateMidpointLng := validAltMidpointLng |}.

(** All eight coordinates are finite. *)
Definition allFinite (props : MapProps) : bool :=
  Number_isFinite (startLat props) && Number_isFinite (startLng props)
  && Number_isFinite (endLat props) && Number_isFinite (endLng props)
  && Number_isFinite (midpointLat props) && Number_isFinite (midpointLng props)
  && Number_isFinite (alternateMidpointLat props)
  && Number_isFinite (alternateMidpointLng props).

End MapWrapper.

Arguments MapProps num : clear implicits.

(** Properties with a start longitude and a midpoint latitude that are not
    numbers and an alternate midpoint that is infinite or not a number. *)
Definition brokenProps : MapProps float :=
  {| startLat := 40%float; startLng := PrimFloat.nan;
     endLat := 1%float; endLng := 2%float;
     midpointLat := PrimFloat.nan; midpointLng := 5%float;
     alternateMidpointLat := PrimFloat.neg_infinity;
     alternateMidpointLng := PrimFloat.nan |}.

(** ** Durations and distances as text: [formatDuration], [formatDistance] *)

(** What the formatting code needs besides [JsNumber]: a decimal literal
    ([decimal m k] is [m] with its last [k] digits after the point), [>=],
    [Math.round], [Math.floor] and the remainder operator [%]. *)
Class JsFormat (num : Type) : Type := {
  decimal : Z -> nat -> num;
  geb : num -> num -> bool;
  Math_round : num -> num;
  Math_floor : num -> num;
  remainder : num -> num -> num
}.

Arguments decimal {num _} _%_Z _%_nat.

Section Formatting.
Context {num : Type} `{JsNumber num} `{JsFormat num}.
Local Open Scope js_scope.
Local Open Scope string_scope.

(** The text of a number inside a template literal, and
    [Number.prototype.toFixed]: both belong to the language. *)
Variable toString : num -> string.
Variable toFixed : num -> nat -> string.

(** Lines 209-223. *)
Definition formatDuration (minutes : option num) : string :=
  match minutes with
  | None => "N/A"
  | Some minutes =>
      (* Round to nearest minute *)
      let minutes := Math_round minutes in
      let hours := Math_floor (minutes / lit 60) in
      let mins := Math_round (remainder minutes (lit 60)) in
      if hours >? lit 0
      then toString hours ++ "h " ++ toString mins ++ "m"
      else toString mins ++ "m"
  end.

(** Lines 225-242. *)
Definition formatDistance (meters : option num) : string :=
  match meters with
  | None => "N/A"
  | Some meters =>
      (* Convert meters to miles (1 meter = 0.000621371 miles) *)
      let miles := meters * decimal 621371 9 in
      if geb miles (lit 10)
      then toFixed miles 1 ++ " mi"
      else if geb miles (decimal 1 1)
      then toFixed miles 1 ++ " mi"
      else
        let feet := Math_round (miles * lit 5280) in
        toString feet ++ " ft"
  end.

(** The argument of [formatDuration] on a POI card:
    [seconds && seconds / 60]. *)
Definition minutesShown (seconds : option num) : option num :=
  match seconds with
  | Some seconds => if truthy seconds then Some (seconds / lit 60) else Some seconds
  | None => None
  end.

End Formatting.

Definition Rgeb (x y : R) : bool := if Rge_dec x y then true else false.

(** The integer part of a real number, towards zero. *)
Definition Ztrunc (x : R) : Z := if Rle_dec 0 x then Zfloor x else Zceil x.

#[export] Instance R_JsFormat : JsFormat R := {
  decimal := fun m k => (IZR m / IZR (10 ^ Z.of_nat k))%R;
  geb := Rgeb;
  Math_round := fun x => IZR (Zfloor (x + / 2));
  Math_floor := fun x => IZR (Zfloor x);
  remainder := fun x y => (x - y * IZR (Ztrunc (x / y)))%R
}.

(** A way of writing integers, for concrete inputs: the decimal digits.
    (Of non-integral numbers it writes the integer part.) *)
Definition integerText (x : R) : string :=
  DecimalString.NilZero.string_of_int (Z.to_int (Zfloor x)).

(** ** The polylines of [MapComponent] *)


(** ** Saved locations: [locations-actions.ts] and the loading of the app *)

Module LocationsActions.

(** [ActionState<T>]: on failure there is no [data]. *)
Record ActionState (T : Type) : Type := {
  isSuccess : bool;
  message : string;
  data : option T
}.

Arguments isSuccess {T} _.
Arguments message {T} _.
Arguments data {T} _.

Section Actions.
Local Open Scope string_scope.

(** The rows of the locations table and the values for a new row come
    from the database schema. *)
Variables (InsertLocation PartialInsertLocation SelectLocation : Type).

(** The database calls, each with what it resolves to or [Throw] when it
    rejects: [insert ... returning()], [findMany] for a user, [findFirst]
    for an id, [update ... returning()] and [delete]. *)
Variable insertReturning : InsertLocation -> completion (list SelectLocation).
Variable findMany : string -> completion (list SelectLocation).
Variable findFirst : string -> completion (option SelectLocation).
Variable updateReturning :
  string -> PartialInsertLocation -> completion (list SelectLocation).
Variable deleteWhere : string -> completion unit.

Definition createLocationAction (location : InsertLocation) : ActionState SelectLocation :=
  match insertReturning location with
  | Normal rows =>
      {| isSuccess := true;
         message := "Location created successfully";
         data := hd_error rows |}
  | Throw =>
      {| isSuccess := false; message := "Failed to create location"; data := None |}
  end.

Definition getLocationsAction (userId : string) : ActionState (list SelectLocation) :=
  match findMany userId with
  | Normal locations =>
      {| isSuccess := true;
         message := "Locations retrieved successfully";
         data := Some locations |}
  | Throw =>
      {| isSuccess := false; message := "Failed to get locations"; data := None |}
  end.

Definition getLocationAction (id : string) : ActionState SelectLocation :=
  match findFirst id with
  | Normal None =>
      {| isSuccess := false; message := "Location not found"; data := None |}
  | Normal (Some location) =>
      {| isSuccess := true;
         message := "Location retrieved successfully";
         data := Some location |}
  | Throw =>
      {| isSuccess := false; message := "Failed to get location"; data := None |}
  end.

Definition updateLocationAction (id : string) (data : PartialInsertLocation)
    : ActionState SelectLocation :=
  match updateReturning id data with
  | Normal rows =>
      {| isSuccess := true;
         message := "Location updated successfully";
         data := hd_error rows |}
  | Throw =>
      {| isSuccess := false; message := "Failed to update location"; data := None |}
  end.

Definition deleteLocationAction (id : string) : ActionState unit :=
  match deleteWhere id with
  | Normal _ =>
      {| isSuccess := true; message := "Location deleted successfully"; data := None |}
  | Throw =>
      {| isSuccess := false; message := "Failed to delete location"; data := None |}
  end.

(** [loadUserData] of [MeetMeHalfwayApp]: the state [(locations, searches,
    isLoading)] after it.  [getSearchesAction] is not among the sources: its
    outcome is a parameter.  A [userId] that is [null] or empty is falsy. *)
Variable Search : Type.
Variable getSearchesAction : string -> completion (ActionState (list Search)).

Definition loadUserData (userId : option string)
    (state : list SelectLocation * list Search * bool)
    : list SelectLocation * list Search * bool :=
  let '(locations, searches, _) := state in
  match userId with
  | None => ([], [], false)
  | Some userId =>
      if String.eqb userId "" then ([], [], false)
      else
        match getSearchesAction userId with
        | Normal searchesRes =>
            let locationsRes := getLocationsAction userId in
            (match data locationsRes with Some l => l | None => [] end,
             match data searchesRes with Some l => l | None => [] end,
             false)
        | Throw => (locations, searches, false)
        end
  end.

End Actions.

End LocationsActions.

(** Route answers for two cafes: from the start 600 s to either; to the end
    900 s from the cafe named [a], and a failed lookup from any other. *)
Definition startAnswer (poi : PoiResponse) : completion (ActionState float) :=
  routeAnswer 600 1000.

Definition endAnswer (poi : PoiResponse) : completion (ActionState float) :=
  if String.eqb (name poi) "a" then routeAnswer 900 2000 else failedAnswer.

(** * Properties of [getMidpoint] *)

Section RouteMidpointFacts.
Context {num : Type} `{JsNumber num} `{JsMath num}.
Local Open Scope js_scope.

Implicit Types (coordinates : list (num * num)) (route : RouteData num).

Lemma segmentLength_head point1 point2 rest :
  segmentLength (point1 :: point2 :: rest) 0 = segmentDistance point1 point2.
Proof. reflexivity. Qed.

Lemma segmentLength_tail point coordinates i :
  segmentLength (point :: coordinates) (S i) = segmentLength coordinates i.
Proof. reflexivity. Qed.

(** Accumulating over segments [1 .. i] of a polyline is accumulating over
    segments [0 .. i-1] of its tail. *)
Lemma accumulate_tail point coordinates i (currentDistance : num) :
  fold_left add (map (segmentLength (point :: coordinates)) (seq 1 i)) currentDistance
  = fold_left add (map (segmentLength coordinates) (seq 0 i)) currentDistance.
Proof.
  rewrite <- seq_shift, map_map.
  f_equal.
Qed.

(** One iteration of the loop. *)
Lemma walkSegments_step totalDistance currentDistance point1 point2 rest :
  walkSegments totalDistance currentDistance (point1 :: point2 :: rest)
  = if currentDistance + segmentDistance point1 point2 >? totalDistance / lit 2
    then Some (midpointOnSegment totalDistance currentDistance point1 point2)
    else walkSegments totalDistance
           (currentDistance + segmentDistance point1 point2) (point2 :: rest).
Proof. reflexivity. Qed.

(** The loop started at [currentDistance] returns on the first segment
    whose test succeeds. *)
Lemma walkSegments_first_crossing totalDistance :
  forall i coordinates currentDistance point1 point2,
    nth_error coordinates i = Some point1 ->
    nth_error coordinates (S i) = Some point2 ->
    (forall j, (j < i)%nat ->
       (fold_left add (map (segmentLength coordinates) (seq 0 j)) currentDistance
          + segmentLength coordinates j >? totalDistance / lit 2) = false) ->
    (fold_left add (map (segmentLength coordinates) (seq 0 i)) currentDistance
       + segmentDistance point1 point2 >? totalDistance / lit 2) = true ->
    walkSegments totalDistance currentDistance coordinates
    = Some (midpointOnSegment totalDistance
              (fold_left add (map (segmentLength coordinates) (seq 0 i)) currentDistance)
              point1 point2).
Proof.
  induction i as [|i IH]; intros coordinates currentDistance point1 point2 H1 H2 Hbefore Hat.
  - destruct coordinates as [|p [|q rest]]; simpl in H1, H2; try discriminate.
    injection H1 as Hp. injection H2 as Hq. subst p q.
    rewrite walkSegments_step. simpl in Hat. now rewrite Hat.
  - destruct coordinates as [|p [|q rest]]; try discriminate.
    pose proof (Hbefore 0%nat (Nat.lt_0_succ i)) as H0'.
    simpl in H0'. rewrite segmentLength_head in H0'.
    rewrite walkSegments_step, H0'.
    change (seq 0 (S i)) with (0%nat :: seq 1 i).
    cbn [map fold_left]. rewrite segmentLength_head, accumulate_tail.
    apply IH; auto.
    + intros j Hj. specialize (Hbefore (S j) (proj1 (Nat.succ_lt_mono j i) Hj)).
      change (seq 0 (S j)) with (0%nat :: seq 1 j) in Hbefore.
      cbn [map fold_left] in Hbefore.
      now rewrite segmentLength_head, accumulate_tail, segmentLength_tail in Hbefore.
    + change (seq 0 (S i)) with (0%nat :: seq 1 i) in Hat.
      cbn [map fold_left] in Hat.
      now rewrite segmentLength_head, accumulate_tail in Hat.
Qed.

(** The loop runs to its end when no test succeeds. *)
Lemma walkSegments_no_crossing totalDistance :
  forall coordinates currentDistance,
    (forall j, (S j < List.length coordinates)%nat ->
       (fold_left add (map (segmentLength coordinates) (seq 0 j)) currentDistance
          + segmentLength coordinates j >? totalDistance / lit 2) = false) ->
    walkSegments totalDistance currentDistance coordinates = None.
Proof.
  intros polyline.
  induction polyline as [|p polyline IH]; intros currentDistance Hnone.
  - reflexivity.
  - destruct polyline as [|q rest]; [reflexivity|].
    assert (H0' : (currentDistance + segmentDistance p q >? totalDistance / lit 2) = false).
    { apply (Hnone 0%nat). simpl. lia. }
    rewrite walkSegments_step, H0'.
    apply IH. intros j Hj.
    assert (Hj' : (S (S j) < List.length (p :: q :: rest))%nat) by (simpl in *; lia).
    specialize (Hnone (S j) Hj').
    change (seq 0 (S j)) with (0%nat :: seq 1 j) in Hnone.
    cbn [map fold_left] in Hnone.
    now rewrite segmentLength_head, accumulate_tail, segmentLength_tail in Hnone.
Qed.

(** The loop returns only from inside a segment: never on fewer than two
    points. *)
Lemma walkSegments_short totalDistance currentDistance coordinates :
  (List.length coordinates < 2)%nat ->
  walkSegments totalDistance currentDistance coordinates = None.
Proof.
  destruct coordinates as [|p [|q rest]]; simpl; intros; try reflexivity; lia.
Qed.

(** The middle index is inside a polyline that has a point. *)
Lemma middle_coordinate coordinates :
  coordinates <> [] ->
  exists middle, nth_error coordinates (Nat.div (List.length coordinates) 2) = Some middle.
Proof.
  intros Hne.
  destruct (nth_error coordinates (Nat.div (List.length coordinates) 2)) as [middle|] eqn:E.
  - now exists middle.
  - apply nth_error_None in E.
    destruct coordinates as [|p rest]; [contradiction|].
    exfalso.
    assert (Hpos : (0 < List.length (p :: rest))%nat) by (simpl; lia).
    pose proof (Nat.div_lt _ 2 Hpos ltac:(lia)). lia.
Qed.

(** C1.  When the polyline crosses the half distance, that is when the
    test [distanceBefore + segmentLength > totalDistance / 2] fails on
    segments [0 .. i-1] and succeeds on segment [i] (from [point1] to
    [point2]), [getMidpoint] returns the linear interpolation between
    [point1] and [point2] with
    [ratio = (totalDistance / 2 - distanceBefore) / segmentDistance]. *)
Theorem getMidpoint_first_crossing route i point1 point2 :
  nth_error (coordinates (geometry route)) i = Some point1 ->
  nth_error (coordinates (geometry route)) (S i) = Some point2 ->
  (forall j, (j < i)%nat -> crossesHalf route j = false) ->
  crossesHalf route i = true ->
  let ratio :=
    (distance route / lit 2 - distanceBefore (coordinates (geometry route)) i)
      / segmentDistance point1 point2 in
  getMidpoint (Some route)
  = Normal (Some {| lat := snd point1 + ratio * (snd point2 - snd point1);
                    lng := fst point1 + ratio * (fst point2 - fst point1) |}).
Proof.
  intros H1 H2 Hbefore Hat ratio.
  unfold getMidpoint. cbv zeta.
  rewrite (@walkSegments_first_crossing (distance route) i _ (lit 0) _ _ H1 H2).
  - reflexivity.
  - exact Hbefore.
  - unfold crossesHalf, segmentLength in Hat. cbv zeta in Hat.
    now rewrite H1, H2 in Hat.
Qed.

(** C2 (amended).  A route whose polyline has fewer than two points never
    enters the loop.  With exactly one point [getMidpoint] returns that
    point; with no point the read of the middle coordinate throws (a
    [TypeError], the code has no error of its own for a short route). *)
Theorem getMidpoint_short_route route :
  (List.length (coordinates (geometry route)) < 2)%nat ->
  match coordinates (geometry route) with
  | [] => getMidpoint (Some route) = Throw
  | point :: _ =>
      getMidpoint (Some route) = Normal (Some {| lat := snd point; lng := fst point |})
  end.
Proof.
  intros Hshort. unfold getMidpoint. cbv zeta.
  rewrite (@walkSegments_short (distance route) (lit 0) _ Hshort).
  destruct (coordinates (geometry route)) as [|p [|q rest]]; try reflexivity.
  simpl in Hshort. lia.
Qed.

(** C3.  When no segment crosses the half distance (the test fails on
    every segment), [getMidpoint] of a route with a non-empty polyline
    returns the coordinate at index [length / 2] (integer division): a
    result, not a failure. *)
Theorem getMidpoint_no_crossing route :
  coordinates (geometry route) <> [] ->
  (forall i, (S i < List.length (coordinates (geometry route)))%nat ->
     crossesHalf route i = false) ->
  exists middle,
    nth_error (coordinates (geometry route))
              (Nat.div (List.length (coordinates (geometry route))) 2) = Some middle
    /\ getMidpoint (Some route)
       = Normal (Some {| lat := snd middle; lng := fst middle |}).
Proof.
  intros Hne Hnone.
  destruct (middle_coordinate Hne) as [middle Hmiddle].
  exists middle. split; [exact Hmiddle|].
  unfold getMidpoint. cbv zeta.
  rewrite (@walkSegments_no_crossing (distance route) _ (lit 0) Hnone).
  now rewrite Hmiddle.
Qed.

(** C10.  [getMidpoint] returns [null] exactly on a [null] route; it
    throws exactly on a route with an empty coordinate array; on every
    other route it returns a coordinate, and on a polyline of one point
    that point. *)
Theorem getMidpoint_total (route : option (RouteData num)) :
  (getMidpoint route = Normal None <-> route = None)
  /\ (getMidpoint route = Throw
      <-> exists r, route = Some r /\ coordinates (geometry r) = [])
  /\ (forall r, route = Some r -> coordinates (geometry r) <> [] ->
      exists midpoint, getMidpoint route = Normal (Some midpoint))
  /\ (forall r point, route = Some r -> coordinates (geometry r) = [point] ->
      getMidpoint route = Normal (Some {| lat := snd point; lng := fst point |})).
Proof.
  assert (Hsome : forall r, coordinates (geometry r) <> [] ->
            exists midpoint, getMidpoint (Some r) = Normal (Some midpoint)).
  { intros r Hne. unfold getMidpoint. cbv zeta.
    destruct (walkSegments _ _ _) as [p|]; [now exists p|].
    destruct (middle_coordinate Hne) as [middle ->]. eauto. }
  assert (Hempty : forall r, coordinates (geometry r) = [] -> getMidpoint (Some r) = Throw).
  { intros r E. unfold getMidpoint. now rewrite E. }
  repeat split.
  - destruct route as [r|]; [|reflexivity].
    intros E. destruct (coordinates (geometry r)) as [|point rest] eqn:Ecs.
    + rewrite (Hempty r Ecs) in E. discriminate.
    + destruct (Hsome r) as [m Hm]; [now rewrite Ecs|]. rewrite Hm in E. discriminate.
  - now intros ->.
  - destruct route as [r|]; [|discriminate].
    intros E. exists r. split; [reflexivity|].
    destruct (coordinates (geometry r)) as [|point rest] eqn:Ecs; [reflexivity|].
    destruct (Hsome r) as [m Hm]; [now rewrite Ecs|]. rewrite Hm in E. discriminate.
  - intros (r & -> & E). now apply Hempty.
  - intros r -> Hne. now apply Hsome.
  - intros r point -> E. unfold getMidpoint. now rewrite E.
Qed.

End RouteMidpointFacts.

(** * Facts about the real-number instance *)

Section RealNumbers.
Local Open Scope R_scope.

Lemma Rgtb_true (x y : R) : Rgtb x y = true <-> x > y.
Proof. unfold Rgtb. destruct (Rgt_dec x y); split; intros; try easy. Qed.

Lemma Rgtb_false (x y : R) : Rgtb x y = false <-> x <= y.
Proof.
  unfold Rgtb. destruct (Rgt_dec x y); split; intros; try easy; lra.
Qed.

Lemma Rtruthy_true (x : R) : Rtruthy x = true <-> x <> 0.
Proof. unfold Rtruthy. destruct (Req_dec_T x 0); split; intros; easy. Qed.

Lemma atan2_right (y x : R) : 0 < x -> atan2 y x = atan (y / x).
Proof. intros Hx. unfold atan2. now destruct (Rlt_dec 0 x). Qed.



Lemma atan2_up (y : R) : 0 < y -> atan2 y 0 = PI / 2.
Proof.
  intros Hy. unfold atan2.
  destruct (Rlt_dec 0 0); [lra|].
  now destruct (Rlt_dec 0 y).
Qed.

Lemma atan2_down (y : R) : y < 0 -> atan2 y 0 = - (PI / 2).
Proof.
  intros Hy. unfold atan2.
  destruct (Rlt_dec 0 0); [lra|].
  destruct (Rlt_dec 0 y); [lra|].
  now destruct (Rlt_dec y 0).
Qed.

Lemma atan2_origin : atan2 0 0 = 0.
Proof.
  unfold atan2.
  destruct (Rlt_dec 0 0); [lra|reflexivity].
Qed.

Lemma PI_gt_3 : 3 < PI.
Proof. pose proof PI2_3_2. lra. Qed.

(** Half of the equator, from longitude 0 to longitude 180, is [PI]
    Earth radii long. *)
Lemma segmentDistance_halfEquator :
  segmentDistance (num := R) (0, 0) (180, 0) = 6371000 * PI.
Proof.
  unfold segmentDistance. cbn.
  replace ((0 - 0) * PI / 180 / 2) with 0 by lra.
  replace (0 * PI / 180) with 0 by lra.
  replace ((180 - 0) * PI / 180 / 2) with (PI / 2) by lra.
  rewrite sin_0, cos_0, sin_PI2.
  replace (0 * 0 + 1 * 1 * 1 * 1) with 1 by lra.
  replace (1 - 1) with 0 by lra.
  rewrite sqrt_1, sqrt_0, atan2_up by lra.
  lra.
Qed.

End RealNumbers.

(** The witness of C1: half of the equator with the total distance
    20 000 km is crossed on its only segment. *)
Lemma getMidpoint_first_crossing_witness :
  getMidpoint (Some (halfEquator 20000000))
  = Normal (Some {| lat := (0 + (20000000 / 2 - 0) / segmentDistance (0, 0) (180, 0) * (0 - 0))%R;
                    lng := (0 + (20000000 / 2 - 0) / segmentDistance (0, 0) (180, 0) * (180 - 0))%R |}).
Proof.
  refine (@getMidpoint_first_crossing R _ _ (halfEquator 20000000) 0%nat
            (0, 0)%R (180, 0)%R eq_refl eq_refl _ _).
  - intros j Hj. inversion Hj.
  - unfold crossesHalf, distanceBefore. cbn [halfEquator coordinates geometry distance seq map fold_left].
    rewrite segmentLength_head, segmentDistance_halfEquator.
    apply Rgtb_true. cbn. pose proof PI_gt_3. lra.
Defined.

(** The counterexample of C2 as stated: a route of one point is not
    refused, its point is returned. *)
Lemma getMidpoint_one_point_not_refused :
  List.length (coordinates (geometry onePointRoute)) = 1%nat
  /\ getMidpoint (Some onePointRoute) = Normal (Some {| lat := 2%R; lng := 1%R |})
  /\ getMidpoint (Some onePointRoute) <> Throw.
Proof.
  repeat split. discriminate.
Qed.

(** The witness of C2 (amended), on the same route. *)
Lemma getMidpoint_short_route_witness :
  getMidpoint (Some onePointRoute) = Normal (Some {| lat := 2%R; lng := 1%R |}).
Proof.
  refine (@getMidpoint_short_route R _ _ onePointRoute _).
  simpl. lia.
Defined.

(** The witness of C3: with the total distance overstated as 60 000 km the
    only segment of the half equator stays below the half distance, and the
    coordinate at index 1 is returned. *)
Lemma getMidpoint_no_crossing_witness :
  exists middle,
    nth_error (coordinates (geometry (halfEquator 60000000))) 1 = Some middle
    /\ getMidpoint (Some (halfEquator 60000000))
       = Normal (Some {| lat := snd middle; lng := fst middle |}).
Proof.
  refine (@getMidpoint_no_crossing R _ _ (halfEquator 60000000) _ _).
  - discriminate.
  - intros i Hi. simpl in Hi.
    assert (i = 0%nat) as -> by lia.
    unfold crossesHalf, distanceBefore.
    cbn [halfEquator coordinates geometry distance seq map fold_left].
    rewrite segmentLength_head, segmentDistance_halfEquator.
    apply Rgtb_false. cbn. pose proof PI_4. lra.
Defined.

(** * The haversine distance over the reals *)

(** C9.  With real arithmetic the great-circle distance computed by
    [getMidpoint] between two points is symmetric. *)
Theorem segmentDistance_symmetric (a b : R * R) :
  segmentDistance a b = segmentDistance b a.
Proof.
  destruct a as [lon1 lat1], b as [lon2 lat2].
  unfold segmentDistance. cbn.
  replace ((lat1 - lat2) * PI / 180 / 2)%R
    with (- ((lat2 - lat1) * PI / 180 / 2))%R by lra.
  replace ((lon1 - lon2) * PI / 180 / 2)%R
    with (- ((lon2 - lon1) * PI / 180 / 2))%R by lra.
  rewrite !sin_neg.
  set (s := sin ((lat2 - lat1) * PI / 180 / 2)).
  set (t := sin ((lon2 - lon1) * PI / 180 / 2)).
  set (c1 := cos (lat1 * PI / 180)).
  set (c2 := cos (lat2 * PI / 180)).
  replace (- s * - s + c2 * c1 * - t * - t)%R
    with (s * s + c1 * c2 * t * t)%R by ring.
  reflexivity.
Qed.

(** * Directions of plane vectors and [Math.atan2] *)

Section Angles.
Local Open Scope R_scope.



Lemma atan_nonneg (t : R) : 0 <= t -> 0 <= atan t.
Proof.
  intros [Ht| <-].
  - left. rewrite <- atan_0. now apply atan_increasing.
  - rewrite atan_0. lra.
Qed.







(** A vector in the upper half plane has its direction in [[0, PI]]. *)
Lemma atan2_upper (y x : R) : 0 <= y -> 0 <= atan2 y x.
Proof.
  intros Hy.
  pose proof (atan_bound (y / x)) as Hb.
  pose proof PI_RGT_0 as Hpi.
  unfold atan2.
  destruct (Rlt_dec 0 x) as [Hx|].
  - apply atan_nonneg.
    assert (0 < / x) by now apply Rinv_0_lt_compat.
    unfold Rdiv; nra.
  - destruct (Rlt_dec x 0).
    + destruct (Rle_dec 0 y); lra.
    + destruct (Rlt_dec 0 y); [lra|].
      destruct (Rlt_dec y 0); lra.
Qed.




End Angles.

(** * The geometric midpoint over the reals *)

Section GeometricMidpointFacts.
Local Open Scope R_scope.

Variable getTravelTime : Point R -> Point R -> R.

Lemma toRadians_R (x : R) : toRadians x = x * PI / 180.
Proof. reflexivity. Qed.




End GeometricMidpointFacts.



(** * The category of a point of interest *)

Lemma includes_In (array : list string) (x : string) :
  includes array x = true <-> In x array.
Proof.
  unfold includes. rewrite existsb_exists. split.
  - intros (y & Hy & E). apply String.eqb_eq in E. now subst y.
  - intros Hx. exists x. split; [exact Hx|apply String.eqb_refl].
Qed.

Lemma includes_not_In (array : list string) (x : string) :
  ~ In x array -> includes array x = false.
Proof.
  intros Hx. destruct (includes array x) eqn:E; [|reflexivity].
  apply includes_In in E. contradiction.
Qed.

(** The counterexample of C7 as stated: the tag [theater] is not in the
    claim's list for activities and is mapped to activities all the same;
    a tag in capitals is mapped like its lower-case form. *)
Lemma getPoiCategory_beyond_the_listed_tags :
  getPoiCategory "theater" = activities
  /\ specCategory "theater" = other
  /\ getPoiCategory "Restaurant" = food
  /\ specCategory "Restaurant" = other.
Proof. repeat split. Qed.

(** C7 (amended).  The category is decided on the lower-case form of the
    type tag: restaurant, cafe, bar, pub, fast_food give food; park, cinema,
    theatre, theater, museum give activities; hotel, hostel, guest_house
    give lodging; a tag whose lower-case form is none of these gives
    other. *)
Theorem getPoiCategory_mapping (type : string) :
  (In (toLowerCase type) ["restaurant"; "cafe"; "bar"; "pub"; "fast_food"]%string
   -> getPoiCategory type = food)
  /\ (In (toLowerCase type) ["park"; "cinema"; "theatre"; "theater"; "museum"]%string
      -> getPoiCategory type = activities)
  /\ (In (toLowerCase type) ["hotel"; "hostel"; "guest_house"]%string
      -> getPoiCategory type = lodging)
  /\ (~ In (toLowerCase type)
          ["restaurant"; "cafe"; "bar"; "pub"; "fast_food";
           "park"; "cinema"; "theatre"; "theater"; "museum";
           "hotel"; "hostel"; "guest_house"]%string
      -> getPoiCategory type = other).
Proof.
  unfold getPoiCategory. cbv zeta. generalize (toLowerCase type). intros tag.
  repeat split.
  - intros Hin. simpl in Hin.
    repeat (destruct Hin as [<- | Hin]; [reflexivity|]). contradiction.
  - intros Hin. simpl in Hin.
    repeat (destruct Hin as [<- | Hin]; [reflexivity|]). contradiction.
  - intros Hin. simpl in Hin.
    repeat (destruct Hin as [<- | Hin]; [reflexivity|]). contradiction.
  - intros Hnot.
    rewrite !includes_not_In; [reflexivity| | |];
      intros Hin; apply Hnot; simpl in Hin |- *; tauto.
Qed.

(** The witness of C7 (amended), on the tag [Theater]. *)
Lemma getPoiCategory_mapping_witness : getPoiCategory "Theater" = activities.
Proof.
  refine (proj1 (proj2 (getPoiCategory_mapping "Theater")) _).
  simpl. tauto.
Defined.

(** * Scoring, filtering and sorting for every number implementation *)

Section PointsOfInterestFacts.
Context {num : Type} `{JsNumber num}.
Local Open Scope js_scope.

Variable localeCompare : string -> string -> num.

(** C4.  [calculateTravelTimes] scores the POIs one for one, from the two
    route answers of each.  When both lookups succeed with data, the two
    travel times are the durations answered, the total time is their sum
    and the time difference the absolute value of their difference.  When a
    lookup gives no duration (it throws, fails or has no data), and
    generally whenever one of the two travel times of the scored POI is
    absent, the total time and the time difference are both absent. *)
Theorem calculateTravelTimes_derived (favorites : list string)
    (routeFromStart routeToEnd : PoiResponse -> completion (ActionState num))
    (pois : list PoiResponse) :
  Forall2
    (fun poi scored =>
       response scored = poi
       /\ (forall startRoute endRoute startData endData,
             routeFromStart poi = Normal startRoute ->
             routeToEnd poi = Normal endRoute ->
             isSuccess startRoute = true -> data startRoute = Some startData ->
             isSuccess endRoute = true -> data endRoute = Some endData ->
             travelTimeFromStart scored = Some (duration startData)
             /\ travelTimeFromEnd scored = Some (duration endData)
             /\ totalTravelTime scored
                = Some (duration startData + duration endData)
             /\ travelTimeDifference scored
                = Some (Math_abs (duration endData - duration startData)))
       /\ (~ (exists startRoute startData,
                routeFromStart poi = Normal startRoute
                /\ isSuccess startRoute = true /\ data startRoute = Some startData)
           \/ ~ (exists endRoute endData,
                   routeToEnd poi = Normal endRoute
                   /\ isSuccess endRoute = true /\ data endRoute = Some endData) ->
           totalTravelTime scored = None /\ travelTimeDifference scored = None)
       /\ (travelTimeFromStart scored = None \/ travelTimeFromEnd scored = None ->
           totalTravelTime scored = None /\ travelTimeDifference scored = None)
       /\ (forall fromStart fromEnd,
             travelTimeFromStart scored = Some fromStart ->
             travelTimeFromEnd scored = Some fromEnd ->
             totalTravelTime scored = Some (fromStart + fromEnd)
             /\ travelTimeDifference scored = Some (Math_abs (fromEnd - fromStart))))
    pois (calculateTravelTimes favorites routeFromStart routeToEnd pois).
Proof.
  unfold calculateTravelTimes.
  induction pois as [|poi pois IH]; [constructor|].
  cbn [map]. constructor; [clear IH|exact IH].
  unfold withTravelTimes.
  destruct (routeFromStart poi) as [startRoute|].
  2:{ cbn. repeat split; try discriminate; intros; discriminate. }
  destruct (routeToEnd poi) as [endRoute|].
  2:{ cbn. repeat split; try discriminate; intros; discriminate. }
  cbv zeta.
  cbn [response travelTimeFromStart travelTimeFromEnd totalTravelTime
       travelTimeDifference].
  split; [reflexivity|]. split; [|split; [|split]].
  - intros s e ds de Hs He Hss Hds Hes Hde.
    injection Hs as <-. injection He as <-.
    rewrite Hss, Hds, Hes, Hde. cbn. repeat split.
  - intros Hno.
    destruct (isSuccess startRoute) eqn:Hss, (data startRoute) as [ds|] eqn:Hds;
      destruct (isSuccess endRoute) eqn:Hes, (data endRoute) as [de|] eqn:Hde;
      cbn; try (split; reflexivity).
    exfalso. destruct Hno as [Hno | Hno]; apply Hno.
    + exists startRoute, ds. now repeat split.
    + exists endRoute, de. now repeat split.
  - destruct (if isSuccess startRoute then _ else _) as [fromStart|];
      destruct (if isSuccess endRoute then _ else _) as [fromEnd|];
      try (intros _; split; reflexivity).
    intros [E | E]; discriminate.
  - intros a b Ha Hb.
    destruct (if isSuccess startRoute then _ else _) as [fromStart|];
      destruct (if isSuccess endRoute then _ else _) as [fromEnd|];
      try discriminate.
    injection Ha as <-. injection Hb as <-. split; reflexivity.
Qed.

Lemma insertBy_Permutation {A : Type} (comparator : A -> A -> num) (x : A) (l : list A) :
  Permutation (x :: l) (insertBy comparator x l).
Proof.
  induction l as [|y l IH]; simpl.
  - apply Permutation_refl.
  - destruct (comparator x y >? lit 0).
    + apply perm_trans with (y :: x :: l); [apply perm_swap|now apply perm_skip].
    + apply Permutation_refl.
Qed.

(** Sorting rearranges: whatever the comparator answers, no element is
    lost or added. *)
Lemma sort_Permutation {A : Type} (comparator : A -> A -> num) (l : list A) :
  Permutation l (sort comparator l).
Proof.
  induction l as [|x l IH]; simpl.
  - apply perm_nil.
  - apply perm_trans with (x :: sort comparator l).
    + now apply perm_skip.
    + apply insertBy_Permutation.
Qed.

(** The pipeline keeps exactly the POIs that pass the filter. *)
Lemma sortedAndFilteredPois_In activeTab maxTimeDifference showOnlyFavorites sortBy
    (pois : list (PoiWithTravelTimes num)) (poi : PoiWithTravelTimes num) :
  In poi (sortedAndFilteredPois localeCompare activeTab maxTimeDifference
            showOnlyFavorites sortBy pois)
  <-> In poi pois /\ keepPoi activeTab maxTimeDifference showOnlyFavorites poi = true.
Proof.
  unfold sortedAndFilteredPois. rewrite <- filter_In. split.
  - apply Permutation_in, Permutation_sym, sort_Permutation.
  - apply Permutation_in, sort_Permutation.
Qed.

(** A POI without a time difference is judged by its category and by the
    favourites switch alone. *)
Lemma keepPoi_unknown_difference activeTab maxTimeDifference showOnlyFavorites
    (poi : PoiWithTravelTimes num) :
  travelTimeDifference poi = None ->
  keepPoi activeTab maxTimeDifference showOnlyFavorites poi
  = (FilterOption_eqb activeTab all
     || FilterOption_eqb (getPoiCategory (type (response poi))) activeTab)
    && (negb showOnlyFavorites
        || match isFavorite poi with Some b => b | None => false end).
Proof.
  intros E. unfold keepPoi. rewrite E.
  destruct (FilterOption_eqb activeTab all),
    (FilterOption_eqb (getPoiCategory (type (response poi))) activeTab),
    showOnlyFavorites, (isFavorite poi) as [[|]|]; reflexivity.
Qed.

End PointsOfInterestFacts.

(** The witness of C4, on binary64 numbers: with 600 s from the start and
    900 s to the end the cafe [a] gets the total 1500 s and the difference
    300 s; the cafe [b], whose second lookup fails, gets neither. *)
Lemma calculateTravelTimes_derived_witness :
  exists scoredA scoredB,
    calculateTravelTimes [] startAnswer endAnswer [cafe "a"; cafe "b"]
    = [scoredA; scoredB]
    /\ response scoredA = cafe "a"
    /\ travelTimeFromStart scoredA = Some 600%float
    /\ travelTimeFromEnd scoredA = Some 900%float
    /\ totalTravelTime scoredA = Some 1500%float
    /\ travelTimeDifference scoredA = Some 300%float
    /\ response scoredB = cafe "b"
    /\ totalTravelTime scoredB = None
    /\ travelTimeDifference scoredB = None.
Proof.
  pose proof (@calculateTravelTimes_derived float _ [] startAnswer endAnswer
                [cafe "a"; cafe "b"]) as Hall.
  unfold calculateTravelTimes in Hall |- *. cbn [map] in Hall |- *.
  apply Forall2_cons_iff in Hall. destruct Hall as [HA Hrest].
  apply Forall2_cons_iff in Hrest. destruct Hrest as [HB _].
  eexists. eexists. split; [reflexivity|].
  destruct HA as (HresponseA & HbothA & _).
  destruct HB as (HresponseB & _ & HnoneB & _).
  destruct (HbothA _ _ _ _ eq_refl eq_refl eq_refl eq_refl eq_refl eq_refl)
    as (HstartA & HendA & HtotalA & HdiffA).
  destruct HnoneB as [HtotalB HdiffB].
  { right. intros (e & de & He & Hsuccess & _).
    injection He as <-. discriminate. }
  exact (conj HresponseA
          (conj HstartA
             (conj HendA
                (conj HtotalA
                   (conj HdiffA (conj HresponseB (conj HtotalB HdiffB))))))).
Defined.

(** * Scoring and ranking on binary64 numbers *)

(** Scenario 3 of the specification: 600 s and 900 s give the total 1500 s
    and the difference 300 s; without the second time both are absent. *)
Example withTravelTimes_scenario :
  let both := withTravelTimes [] (cafe "a") (routeAnswer 600 1000) (routeAnswer 900 2000) in
  let one := withTravelTimes [] (cafe "a") (routeAnswer 600 1000) failedAnswer in
  totalTravelTime both = Some 1500%float
  /\ travelTimeDifference both = Some 300%float
  /\ totalTravelTime one = None
  /\ travelTimeDifference one = None.
Proof. vm_compute. repeat split. Qed.

(** Scenario 4 of the specification: with the maximum of 5 minutes the
    two POIs more than 300 s apart are dropped and the POI of unknown
    difference is kept (and, compared as zero, sorted first). *)
Example sortedAndFilteredPois_scenario :
  map (fun poi => name (response poi))
      (sortedAndFilteredPois sameName all Max5 false timeDifference
         [scoredCafe "a" None (Some 100%float);
          scoredCafe "b" None (Some 400%float);
          scoredCafe "c" None (Some 200%float);
          scoredCafe "d" None (Some 500%float);
          scoredCafe "e" None None])
  = ["e"; "a"; "c"]%string.
Proof. vm_compute. reflexivity. Qed.

(** The counterexample of C6 as stated: sorted by the distance from the
    start, the POI whose distance is absent comes first, before the POI
    5 m away: the comparator reads the absent value as zero. *)
Lemma sort_absent_first :
  sortKey distanceFromStart_ (scoredCafe "unknown" None None) = None
  /\ sortKey distanceFromStart_ (scoredCafe "near" (Some 5%float) None) = Some 5%float
  /\ sort (comparePois sameName distanceFromStart_)
          [scoredCafe "near" (Some 5%float) None; scoredCafe "unknown" None None]
     = [scoredCafe "unknown" None None; scoredCafe "near" (Some 5%float) None].
Proof. vm_compute. repeat split. Qed.

(** * Filtering and sorting over the reals *)

Section RankingFacts.
Local Open Scope R_scope.

Variable localeCompare : string -> string -> R.

Implicit Types (poi : PoiWithTravelTimes R) (pois : list (PoiWithTravelTimes R)).

(** A time difference above the maximum fails the filter. *)
Lemma keepPoi_exceeding activeTab maxTimeDifference showOnlyFavorites poi difference :
  travelTimeDifference poi = Some difference ->
  difference > 60 * IZR (minutes maxTimeDifference) ->
  keepPoi activeTab maxTimeDifference showOnlyFavorites poi = false.
Proof.
  intros E Hexceeds. unfold keepPoi. rewrite E.
  assert (Hmax : 5 <= IZR (minutes maxTimeDifference))
    by (destruct maxTimeDifference; simpl; lra).
  assert (Htruthy : truthy difference = true) by (apply Rtruthy_true; lra).
  assert (Hgt : gt (div difference (lit 60)) (lit (minutes maxTimeDifference)) = true).
  { apply Rgtb_true. cbn. lra. }
  rewrite Htruthy, Hgt. simpl.
  now destruct (negb (FilterOption_eqb activeTab all)
                && negb (FilterOption_eqb (getPoiCategory (type (response poi))) activeTab)).
Qed.

(** C5.  In the output of the pipeline: a POI whose time difference is
    present and exceeds the maximum (minutes, so sixty times as many
    seconds) does not occur; a POI whose time difference is absent occurs
    exactly when it is in the input and passes the category and favourites
    rules, whatever the maximum. *)
Theorem sortedAndFilteredPois_time_difference activeTab maxTimeDifference
    showOnlyFavorites sortBy pois poi :
  (forall difference,
     travelTimeDifference poi = Some difference ->
     difference > 60 * IZR (minutes maxTimeDifference) ->
     ~ In poi (sortedAndFilteredPois localeCompare activeTab maxTimeDifference
                 showOnlyFavorites sortBy pois))
  /\ (travelTimeDifference poi = None ->
      (In poi (sortedAndFilteredPois localeCompare activeTab maxTimeDifference
                 showOnlyFavorites sortBy pois)
       <-> In poi pois
           /\ (activeTab = all \/ getPoiCategory (type (response poi)) = activeTab)
           /\ (showOnlyFavorites = true -> isFavorite poi = Some true))).
Proof.
  split.
  - intros difference E Hexceeds Hin.
    apply sortedAndFilteredPois_In in Hin. destruct Hin as [_ Hkeep].
    rewrite (keepPoi_exceeding activeTab _ showOnlyFavorites _ E Hexceeds) in Hkeep.
    discriminate.
  - intros E. rewrite sortedAndFilteredPois_In, (keepPoi_unknown_difference _ _ _ _ E).
    rewrite andb_true_iff, !orb_true_iff.
    assert (Heqb : forall a b, FilterOption_eqb a b = true <-> a = b)
      by (intros [] []; simpl; split; congruence).
    rewrite !Heqb, negb_true_iff.
    split; intros (Hin & Hrest); (split; [exact Hin|]).
    + destruct Hrest as [Hcat Hfav]. split; [exact Hcat|].
      intros ->. destruct Hfav as [Hfav | Hfav]; [discriminate|].
      destruct (isFavorite poi) as [[|]|]; congruence.
    + destruct Hrest as [Hcat Hfav]. split; [exact Hcat|].
      destruct showOnlyFavorites; [right|now left].
      now rewrite Hfav.
Qed.

Lemma orZero_Some (value : R) : orZero (Some value) = value.
Proof.
  unfold orZero. cbn. unfold Rtruthy.
  destruct (Req_dec_T value 0) as [-> |]; reflexivity.
Qed.

(** On a numeric sort option the comparator is the difference of the two
    keys, each read as zero when absent. *)
Lemma comparePois_key sortBy poi1 poi2 :
  sortBy <> name_ ->
  comparePois localeCompare sortBy poi1 poi2
  = orZero (sortKey sortBy poi1) - orZero (sortKey sortBy poi2).
Proof. destruct sortBy; intros Hkey; [contradiction | reflexivity ..]. Qed.

Section SortByKey.
Variables (A : Type) (key : A -> R) (comparator : A -> A -> R).
Hypothesis comparator_key : forall a b, comparator a b = key a - key b.

Lemma insertBy_sorted (x : A) (l : list A) :
  StronglySorted (ascendingBy key) l ->
  StronglySorted (ascendingBy key) (insertBy comparator x l).
Proof.
  induction l as [|y l IH]; intros Hsorted; simpl.
  - constructor; constructor.
  - inversion Hsorted as [|? ? Htail Hhead]; subst.
    destruct (Rgtb (comparator x y) 0) eqn:Etest.
    + apply Rgtb_true in Etest. rewrite comparator_key in Etest.
      constructor; [now apply IH|].
      apply (Permutation_Forall (insertBy_Permutation comparator x l)).
      constructor; [unfold ascendingBy; lra|exact Hhead].
    + apply Rgtb_false in Etest. rewrite comparator_key in Etest.
      constructor; [exact Hsorted|].
      constructor; [unfold ascendingBy; lra|].
      apply Forall_impl with (2 := Hhead). unfold ascendingBy. intros z Hz. lra.
Qed.

Lemma sort_sorted (l : list A) : StronglySorted (ascendingBy key) (sort comparator l).
Proof.
  induction l as [|x l IH]; simpl; [constructor|now apply insertBy_sorted].
Qed.

(** In a sorted list an element is below everything after it. *)
Lemma sorted_split (before : list A) (x : A) (after : list A) :
  StronglySorted (ascendingBy key) (before ++ x :: after) ->
  Forall (ascendingBy key x) after.
Proof.
  induction before as [|y before IH]; simpl; intros Hsorted.
  - now inversion Hsorted.
  - inversion Hsorted; subst. now apply IH.
Qed.

End SortByKey.

(** C6 (amended).  For a numeric sort option the sort step rearranges the
    list into ascending order of the key read as zero when absent.  So a
    POI with an absent value is never behind a POI with a positive value:
    whatever stands before it has a present value of at most zero, or an
    absent one. *)
Theorem sort_absent_as_zero sortBy pois :
  sortBy <> name_ ->
  let sorted := sort (comparePois localeCompare sortBy) pois in
  Permutation pois sorted
  /\ StronglySorted (ascendingBy (fun poi => orZero (sortKey sortBy poi))) sorted
  /\ (forall before poi after unknown value,
        sorted = before ++ poi :: after ->
        In unknown after ->
        sortKey sortBy unknown = None ->
        sortKey sortBy poi = Some value ->
        value <= 0).
Proof.
  intros Hkey sorted.
  assert (Hsorted : StronglySorted
            (ascendingBy (fun poi => orZero (sortKey sortBy poi))) sorted).
  { apply sort_sorted. intros a b. now apply comparePois_key. }
  split; [apply sort_Permutation|]. split; [exact Hsorted|].
  intros before poi after unknown value Esplit Hin Hunknown Hvalue.
  rewrite Esplit in Hsorted. apply sorted_split in Hsorted.
  rewrite Forall_forall in Hsorted. specialize (Hsorted unknown Hin).
  unfold ascendingBy in Hsorted.
  rewrite Hunknown, Hvalue, orZero_Some in Hsorted. exact Hsorted.
Qed.

End RankingFacts.

(** The witness of C6 (amended): two POIs sorted by their distance from the
    start, the second without a distance. *)
Lemma sort_absent_as_zero_witness :
  let sorted :=
    sort (comparePois sameNameR distanceFromStart_)
         [scoredCafeR "near" (Some 5%R); scoredCafeR "unknown" None] in
  Permutation [scoredCafeR "near" (Some 5%R); scoredCafeR "unknown" None] sorted
  /\ StronglySorted (ascendingBy (fun poi => orZero (sortKey distanceFromStart_ poi)))
       sorted
  /\ (forall before poi after unknown value,
        sorted = before ++ poi :: after ->
        In unknown after ->
        sortKey distanceFromStart_ unknown = None ->
        sortKey distanceFromStart_ poi = Some value ->
        (value <= 0)%R).
Proof.
  refine (@sort_absent_as_zero sameNameR distanceFromStart_ _ _).
  discriminate.
Defined.

(** * More on the haversine distance and the route midpoint, over the reals *)

Section RouteMidpointReals.
Local Open Scope R_scope.

Implicit Types (route : RouteData R) (point : R * R).

(** With both coordinates non-negative the direction is in the first
    quadrant. *)
Lemma atan2_quadrant (y x : R) : 0 <= y -> 0 <= x -> 0 <= atan2 y x <= PI / 2.
Proof.
  intros Hy Hx. split; [now apply atan2_upper|].
  pose proof (atan_bound (y / x)) as Hb.
  pose proof PI_RGT_0 as Hpi.
  unfold atan2.
  destruct (Rlt_dec 0 x); [lra|].
  destruct (Rlt_dec x 0); [lra|].
  destruct (Rlt_dec 0 y); [lra|].
  destruct (Rlt_dec y 0); lra.
Qed.

Lemma segmentDistance_same point : segmentDistance point point = 0.
Proof.
  destruct point as [lon1 lat1]. unfold segmentDistance. cbn.
  replace ((lat1 - lat1) * PI / 180 / 2) with 0 by lra.
  replace ((lon1 - lon1) * PI / 180 / 2) with 0 by lra.
  rewrite sin_0.
  replace (0 * 0 + cos (lat1 * PI / 180) * cos (lat1 * PI / 180) * 0 * 0)
    with 0 by ring.
  replace (1 - 0) with 1 by ring.
  rewrite sqrt_0, sqrt_1, atan2_right by lra.
  replace (0 / 1) with 0 by lra.
  rewrite atan_0. ring.
Qed.

(** X1.  The distance between two points is never negative and never more
    than half of the Earth's circumference, [PI] times the radius of
    6 371 000 m; from a point to itself it is zero. *)
Theorem segmentDistance_range (point1 point2 : R * R) :
  0 <= segmentDistance point1 point2 <= 6371000 * PI
  /\ segmentDistance point1 point1 = 0.
Proof.
  split; [|apply segmentDistance_same].
  unfold segmentDistance. cbn.
  match goal with
  | |- context [atan2 (sqrt ?a) (sqrt ?b)] =>
      pose proof (atan2_quadrant (sqrt_pos a) (sqrt_pos b)) as Hq
  end.
  lra.
Qed.

(** The accumulated distance grows by one segment per iteration. *)
Lemma distanceBefore_succ (coordinates : list (R * R)) (i : nat) :
  distanceBefore coordinates (S i)
  = distanceBefore coordinates i + segmentLength coordinates i.
Proof.
  unfold distanceBefore. now rewrite seq_S, map_app, fold_left_app.
Qed.

(** X2.  With a total distance that is not negative, the point returned
    from inside the loop lies on the segment that crosses the half
    distance: the interpolation ratio is in [[0, 1)]. *)
Theorem getMidpoint_within_segment route i point1 point2 :
  0 <= distance route ->
  nth_error (coordinates (geometry route)) i = Some point1 ->
  nth_error (coordinates (geometry route)) (S i) = Some point2 ->
  (forall j, (j < i)%nat -> crossesHalf route j = false) ->
  crossesHalf route i = true ->
  exists ratio,
    0 <= ratio < 1
    /\ getMidpoint (Some route)
       = Normal (Some {| lat := snd point1 + ratio * (snd point2 - snd point1);
                         lng := fst point1 + ratio * (fst point2 - fst point1) |}).
Proof.
  intros Htotal H1 H2 Hbefore Hat.
  exists ((distance route / 2 - distanceBefore (coordinates (geometry route)) i)
          / segmentDistance point1 point2).
  assert (Hlen : segmentLength (coordinates (geometry route)) i
                 = segmentDistance point1 point2)
    by (unfold segmentLength; now rewrite H1, H2).
  split.
  - assert (Hlow : distanceBefore (coordinates (geometry route)) i <= distance route / 2).
    { destruct i as [|k].
      - unfold distanceBefore. cbn. lra.
      - specialize (Hbefore k (Nat.lt_succ_diag_r k)).
        unfold crossesHalf in Hbefore. cbv zeta in Hbefore.
        apply Rgtb_false in Hbefore. cbn [add div lit R_JsNumber] in Hbefore.
        rewrite distanceBefore_succ. exact Hbefore. }
    unfold crossesHalf in Hat. cbv zeta in Hat. apply Rgtb_true in Hat.
    rewrite Hlen in Hat. cbn [add div lit R_JsNumber] in Hat.
    set (rest := distance route / 2 - distanceBefore (coordinates (geometry route)) i) in *.
    assert (Hrest : 0 <= rest) by (unfold rest; lra).
    assert (Hseg : rest < segmentDistance point1 point2) by (unfold rest; lra).
    assert (Hinv : 0 < / segmentDistance point1 point2)
      by (apply Rinv_0_lt_compat; lra).
    split.
    + unfold Rdiv. nra.
    + apply Rmult_lt_reg_r with (segmentDistance point1 point2); [lra|].
      unfold Rdiv. rewrite Rmult_assoc, Rinv_l by lra. lra.
  - unfold getMidpoint. cbv zeta.
    rewrite (@walkSegments_first_crossing R _ _ (distance route) i _ (lit 0) _ _ H1 H2).
    + reflexivity.
    + exact Hbefore.
    + unfold crossesHalf in Hat. cbv zeta in Hat. now rewrite Hlen in Hat.
Qed.

(** X3.  A route of one segment whose total distance is the length of that
    segment (and is positive) has its midpoint at the mean of the two
    coordinates. *)
Theorem getMidpoint_single_segment route point1 point2 :
  coordinates (geometry route) = [point1; point2] ->
  distance route = segmentDistance point1 point2 ->
  0 < segmentDistance point1 point2 ->
  getMidpoint (Some route)
  = Normal (Some {| lat := (snd point1 + snd point2) / 2;
                    lng := (fst point1 + fst point2) / 2 |}).
Proof.
  intros Hcs Htotal Hpos.
  unfold getMidpoint. cbv zeta. rewrite Hcs, walkSegments_step.
  assert (Htest : gt (add (lit 0) (segmentDistance point1 point2))
                     (div (distance route) (lit 2)) = true).
  { apply Rgtb_true. rewrite Htotal. cbn [add div lit R_JsNumber]. lra. }
  rewrite Htest. unfold midpointOnSegment. cbv zeta. rewrite Htotal.
  cbn [add sub mul div lit R_JsNumber].
  do 3 f_equal; field; lra.
Qed.

(** A polyline that repeats one point is never crossed when the total
    distance is not negative. *)
Lemma walkSegments_repeated (totalDistance : R) point (coordinates : list (R * R)) :
  0 <= totalDistance ->
  Forall (eq point) coordinates ->
  walkSegments totalDistance 0 coordinates = None.
Proof.
  intros Htotal Hall.
  induction Hall as [|p rest <- Hrest IH]; [reflexivity|].
  destruct Hrest as [|q rest' <- Hrest']; [reflexivity|].
  rewrite walkSegments_step, segmentDistance_same.
  assert (Htest : gt (add 0 0) (div totalDistance (lit 2)) = false)
    by (apply Rgtb_false; cbn; lra).
  rewrite Htest. cbn [add R_JsNumber]. rewrite Rplus_0_r. exact IH.
Qed.

(** X4.  A route that stays on one point, with a total distance that is not
    negative, has that point as its midpoint. *)
Theorem getMidpoint_zero_length route point :
  coordinates (geometry route) <> [] ->
  Forall (eq point) (coordinates (geometry route)) ->
  0 <= distance route ->
  getMidpoint (Some route) = Normal (Some {| lat := snd point; lng := fst point |}).
Proof.
  intros Hne Hall Htotal.
  unfold getMidpoint. cbv zeta.
  change (lit 0) with 0.
  rewrite (walkSegments_repeated Htotal Hall).
  destruct (middle_coordinate Hne) as [middle Hmiddle]. rewrite Hmiddle.
  rewrite Forall_forall in Hall.
  now rewrite <- (Hall middle (nth_error_In _ _ Hmiddle)).
Qed.

End RouteMidpointReals.

Lemma getMidpoint_within_segment_witness :
  exists ratio : R,
    (0 <= ratio < 1)%R
    /\ getMidpoint (Some (halfEquator 20000000))
       = Normal (Some {| lat := (0 + ratio * (0 - 0))%R;
                         lng := (0 + ratio * (180 - 0))%R |}).
Proof.
  refine (@getMidpoint_within_segment (halfEquator 20000000) 0%nat
            (0, 0)%R (180, 0)%R _ eq_refl eq_refl _ _).
  - cbn. lra.
  - intros j Hj. inversion Hj.
  - unfold crossesHalf, distanceBefore.
    cbn [halfEquator coordinates geometry distance seq map fold_left].
    rewrite segmentLength_head, segmentDistance_halfEquator.
    apply Rgtb_true. cbn. pose proof PI_gt_3. lra.
Defined.

Lemma getMidpoint_single_segment_witness :
  getMidpoint (Some (halfEquator (6371000 * PI)))
  = Normal (Some {| lat := ((0 + 0) / 2)%R; lng := ((0 + 180) / 2)%R |}).
Proof.
  refine (@getMidpoint_single_segment (halfEquator (6371000 * PI))
            (0, 0)%R (180, 0)%R eq_refl _ _).
  - now rewrite segmentDistance_halfEquator.
  - rewrite segmentDistance_halfEquator. pose proof PI_RGT_0. lra.
Defined.

Lemma getMidpoint_zero_length_witness :
  getMidpoint (Some standingRoute) = Normal (Some {| lat := 2%R; lng := 1%R |}).
Proof.
  refine (@getMidpoint_zero_length standingRoute (1, 2)%R _ _ _).
  - discriminate.
  - repeat constructor.
  - cbn. lra.
Defined.

(** * More on the geometric midpoint, over the reals *)

Section GeometricMidpointReals.
Local Open Scope R_scope.

Variable getTravelTime : Point R -> Point R -> R.

(** A vector in the right half plane has its direction in
    [[-PI/2, PI/2]]. *)
Lemma atan2_right_half (y x : R) : 0 <= x -> - (PI / 2) <= atan2 y x <= PI / 2.
Proof.
  intros Hx.
  pose proof (atan_bound (y / x)) as Hb.
  pose proof PI_RGT_0 as Hpi.
  unfold atan2.
  destruct (Rlt_dec 0 x); [lra|].
  destruct (Rlt_dec x 0); [lra|].
  destruct (Rlt_dec 0 y); [lra|].
  destruct (Rlt_dec y 0); lra.
Qed.

Lemma toDegrees_toRadians (x : R) : toDegrees (toRadians x) = x.
Proof.
  unfold toDegrees, toRadians. cbn. field. pose proof PI_RGT_0. lra.
Qed.

(** X5.  Whatever the two points, the latitude of the geometric midpoint
    is a latitude: between -90 and 90 degrees. *)
Theorem calculateMidpoint_latitude_range (a b : Point R) :
  -90 <= lat (midpoint (calculateMidpoint getTravelTime a b)) <= 90.
Proof.
  unfold calculateMidpoint, toDegrees. cbn -[toRadians].
  match goal with
  | |- context [atan2 ?y (sqrt ?x)] =>
      pose proof (atan2_right_half y (sqrt_pos x)) as Hq;
      set (midLat := atan2 y (sqrt x)) in *
  end.
  pose proof PI_RGT_0 as Hpi.
  assert (Hinv : 0 < / PI) by now apply Rinv_0_lt_compat.
  assert (Hone : PI * / PI = 1) by (apply Rinv_r; lra).
  unfold Rdiv in *. split; nra.
Qed.

(** The direction of [(cos, sin)] of an angle of latitude, doubled. *)
Lemma atan2_latitude (phi : R) :
  - (PI / 2) <= phi <= PI / 2 ->
  atan2 (sin phi + sin phi) (cos phi + cos phi) = phi.
Proof.
  intros [Hlo Hhi].
  destruct Hlo as [Hlo | <-]; [destruct Hhi as [Hhi | ->]|].
  - assert (Hc : 0 < cos phi) by now apply cos_gt_0.
    rewrite atan2_right by lra.
    replace ((sin phi + sin phi) / (cos phi + cos phi)) with (tan phi)
      by (unfold tan; field; lra).
    now apply atan_tan.
  - rewrite cos_PI2, sin_PI2.
    replace (0 + 0) with 0 by ring. apply atan2_up. lra.
  - rewrite cos_neg, sin_neg, cos_PI2, sin_PI2.
    replace (0 + 0) with 0 by ring. apply atan2_down. lra.
Qed.

(** X6.  The geometric midpoint of a valid coordinate and itself is that
    coordinate. *)
Theorem calculateMidpoint_same_point (a : Point R) :
  -90 <= lat a <= 90 ->
  midpoint (calculateMidpoint getTravelTime a a) = a.
Proof.
  intros Hlat. destruct a as [lata lnga]. cbn [lat] in Hlat.
  pose proof PI_RGT_0 as Hpi.
  assert (Hphi : - (PI / 2) <= toRadians lata <= PI / 2)
    by (rewrite toRadians_R; split; nra).
  assert (Hc : 0 <= cos (toRadians lata)) by (apply cos_ge_0; lra).
  unfold calculateMidpoint. cbn [midpoint lat lng]. cbn [add sub mul R_JsNumber].
  cbn [Math_cos Math_sin Math_sqrt Math_atan2 R_JsMath].
  replace (toRadians lnga - toRadians lnga) with 0 by ring.
  rewrite cos_0, sin_0.
  set (c := cos (toRadians lata)) in *. set (s := sin (toRadians lata)).
  replace ((c + c * 1) * (c + c * 1) + c * 0 * (c * 0)) with (Rsqr (c + c))
    by (unfold Rsqr; ring).
  rewrite sqrt_Rsqr by lra.
  unfold c, s. rewrite atan2_latitude by exact Hphi. fold c.
  replace (c * 0) with 0 by ring. replace (c + c * 1) with (c + c) by ring.
  assert (Hlng : atan2 0 (c + c) = 0).
  { destruct Hc as [Hc | <-].
    - rewrite atan2_right by lra. unfold Rdiv. now rewrite Rmult_0_l, atan_0.
    - replace (0 + 0) with 0 by ring. apply atan2_origin. }
  rewrite Hlng, Rplus_0_r, !toDegrees_toRadians. reflexivity.
Qed.

(** The direction of the sum of two vectors of the same length is half way
    between them. *)
Lemma atan2_half_angle (c d : R) :
  0 < c -> - PI < d < PI ->
  atan2 (c * sin d) (c + c * cos d) = d / 2.
Proof.
  intros Hc [Hlo Hhi].
  assert (Hcos : 0 < cos (d / 2)) by (apply cos_gt_0; lra).
  replace d with (2 * (d / 2)) at 1 2 by field.
  rewrite sin_2a, cos_2a_cos.
  set (h := d / 2) in *.
  assert (Hcc : 0 < c * (cos h * cos h))
    by (repeat apply Rmult_lt_0_compat; assumption).
  assert (Hx : 0 < c + c * (2 * cos h * cos h - 1)) by lra.
  rewrite atan2_right by exact Hx.
  replace (c * (2 * sin h * cos h) / (c + c * (2 * cos h * cos h - 1)))
    with (tan h) by (unfold tan; field; lra).
  apply atan_tan. unfold h. lra.
Qed.

(** X7.  For two points at the same latitude, off the poles and less than
    180 degrees of longitude apart, the longitude of the geometric midpoint
    is the mean of the two longitudes. *)
Theorem calculateMidpoint_same_latitude (a b : Point R) :
  lat a = lat b ->
  -90 < lat a < 90 ->
  Rabs (lng b - lng a) < 180 ->
  lng (midpoint (calculateMidpoint getTravelTime a b)) = (lng a + lng b) / 2.
Proof.
  intros Hsame Hlat Hlng.
  pose proof PI_RGT_0 as Hpi.
  apply Rabs_def2 in Hlng.
  assert (Hc : 0 < cos (toRadians (lat a)))
    by (apply cos_gt_0; rewrite toRadians_R; nra).
  assert (Hd : - PI < toRadians (lng b) - toRadians (lng a) < PI)
    by (rewrite !toRadians_R; split; nra).
  unfold calculateMidpoint. cbn [midpoint lng]. cbn [add sub mul R_JsNumber].
  cbn [Math_cos Math_sin Math_atan2 R_JsMath].
  rewrite <- Hsame, (atan2_half_angle Hc Hd).
  unfold toDegrees. rewrite !toRadians_R. cbn. field. lra.
Qed.

End GeometricMidpointReals.

Lemma calculateMidpoint_same_point_witness :
  midpoint (calculateMidpoint noTravelTime equator90E equator90E) = equator90E.
Proof.
  refine (@calculateMidpoint_same_point noTravelTime equator90E _).
  cbn. lra.
Defined.

Lemma calculateMidpoint_same_latitude_witness :
  lng (midpoint (calculateMidpoint noTravelTime equator90E {| lat := 0%R; lng := 0%R |}))
  = ((90 + 0) / 2)%R.
Proof.
  refine (@calculateMidpoint_same_latitude noTravelTime equator90E
            {| lat := 0%R; lng := 0%R |} eq_refl _ _).
  - cbn. lra.
  - cbn. rewrite Rabs_left; lra.
Defined.

(** * Favourites *)

Lemma includes_false (array : list string) (x : string) :
  includes array x = false <-> ~ In x array.
Proof.
  split.
  - intros E Hin. apply includes_In in Hin. congruence.
  - apply includes_not_In.
Qed.

Lemma In_toggleFavorite (poiId id : string) (favorites : list string) :
  In id (toggleFavorite poiId favorites)
  <-> (id = poiId /\ ~ In poiId favorites) \/ (id <> poiId /\ In id favorites).
Proof.
  unfold toggleFavorite.
  destruct (includes favorites poiId) eqn:E.
  - apply includes_In in E. rewrite filter_In, negb_true_iff, String.eqb_neq.
    split.
    + intros [Hin Hne]. right. now split.
    + intros [[-> Hnot] | [Hne Hin]]; [contradiction|now split].
  - apply includes_false in E. rewrite in_app_iff. simpl.
    destruct (String.eqb_spec id poiId) as [-> | Hne].
    + split; [intros _; left; now split|intros _; right; now left].
    + split.
      * intros [Hin | [Heq | []]]; [right; now split|congruence].
      * intros [[Heq _] | [_ Hin]]; [congruence|now left].
Qed.

(** X8.  Toggling a POI id flips whether it is a favourite and changes
    this for no other id. *)
Theorem toggleFavorite_includes (poiId id : string) (favorites : list string) :
  includes (toggleFavorite poiId favorites) id
  = if String.eqb id poiId then negb (includes favorites poiId)
    else includes favorites id.
Proof.
  destruct (String.eqb_spec id poiId) as [-> | Hne].
  - destruct (includes favorites poiId) eqn:E; simpl.
    + apply includes_false. rewrite In_toggleFavorite.
      apply includes_In in E. intros [[_ Hnot] | [Hne _]]; [contradiction|congruence].
    + apply includes_In. rewrite In_toggleFavorite.
      apply includes_false in E. left. now split.
  - destruct (includes favorites id) eqn:E.
    + apply includes_In. rewrite In_toggleFavorite.
      apply includes_In in E. right. now split.
    + apply includes_false. rewrite In_toggleFavorite.
      apply includes_false in E. intros [[Heq _] | [_ Hin]]; [congruence|contradiction].
Qed.

Lemma filter_other_id (poiId : string) (favorites : list string) :
  ~ In poiId favorites ->
  filter (fun id => negb (String.eqb id poiId)) favorites = favorites.
Proof.
  induction favorites as [|x favorites IH]; intros Hnot; [reflexivity|].
  simpl. destruct (String.eqb_spec x poiId) as [-> | Hne].
  - elim Hnot. now left.
  - simpl. f_equal. apply IH. intros Hin. apply Hnot. now right.
Qed.

(** X9.  A list of favourites without repetition stays so under toggling;
    toggling the same id twice gives back the same favourites, in the same
    order when the id was not a favourite, with the id moved to the end
    when it was. *)
Theorem toggleFavorite_twice (poiId : string) (favorites : list string) :
  NoDup favorites ->
  NoDup (toggleFavorite poiId favorites)
  /\ Permutation favorites (toggleFavorite poiId (toggleFavorite poiId favorites))
  /\ (~ In poiId favorites ->
      toggleFavorite poiId (toggleFavorite poiId favorites) = favorites)
  /\ (In poiId favorites ->
      toggleFavorite poiId (toggleFavorite poiId favorites)
      = filter (fun id => negb (String.eqb id poiId)) favorites ++ [poiId]).
Proof.
  intros Hnodup.
  assert (Hremoved : ~ In poiId (filter (fun id => negb (String.eqb id poiId)) favorites)).
  { rewrite filter_In, negb_true_iff, String.eqb_neq. intros [_ Hne]. congruence. }
  assert (Hback : ~ In poiId favorites ->
            toggleFavorite poiId (toggleFavorite poiId favorites) = favorites).
  { intros Hnot. unfold toggleFavorite at 2.
    rewrite (includes_not_In _ _ Hnot). unfold toggleFavorite.
    assert (Hin : includes (favorites ++ [poiId]) poiId = true)
      by (apply includes_In, in_app_iff; right; now left).
    rewrite Hin, filter_app, (filter_other_id _ _ Hnot). simpl.
    rewrite String.eqb_refl. simpl. apply app_nil_r. }
  assert (Hmoved : In poiId favorites ->
            toggleFavorite poiId (toggleFavorite poiId favorites)
            = filter (fun id => negb (String.eqb id poiId)) favorites ++ [poiId]).
  { intros Hin. unfold toggleFavorite at 2.
    rewrite (proj2 (includes_In _ _) Hin). unfold toggleFavorite.
    now rewrite (includes_not_In _ _ Hremoved). }
  split; [|split; [|split; assumption]].
  - unfold toggleFavorite. destruct (includes favorites poiId) eqn:E.
    + now apply NoDup_filter.
    + apply includes_false in E.
      apply NoDup_incl_NoDup with (poiId :: favorites).
      * now constructor.
      * rewrite length_app. simpl. lia.
      * intros x Hx. apply in_app_iff. simpl in *. tauto.
  - destruct (in_dec string_dec poiId favorites) as [Hin | Hnot].
    + rewrite (Hmoved Hin).
      apply NoDup_Permutation; [exact Hnodup| |].
      * apply NoDup_incl_NoDup with
          (poiId :: filter (fun id => negb (String.eqb id poiId)) favorites).
        -- constructor; [exact Hremoved|now apply NoDup_filter].
        -- rewrite length_app. simpl. lia.
        -- intros x Hx. apply in_app_iff. simpl in *. tauto.
      * intros x. rewrite in_app_iff, filter_In, negb_true_iff, String.eqb_neq. simpl.
        destruct (string_dec x poiId) as [-> | Hne]; intuition congruence.
    + now rewrite (Hback Hnot).
Qed.

(** X10.  The save effect never writes an empty array: when a toggle
    empties the favourites, the stored item is left as it was, so a
    component that was in step with its storage finds the favourite it has
    just removed again when it is mounted the next time. *)
Theorem toggleAndSave_last_favourite (poiId : string) (favorites : list string) :
  favorites <> [] ->
  toggleFavorite poiId favorites = [] ->
  toggleAndSave poiId (favorites, Saved favorites) = ([], Saved favorites)
  /\ loadFavorites (snd (toggleAndSave poiId (favorites, Saved favorites))) [] = favorites
  /\ In poiId favorites.
Proof.
  intros Hne Hempty. unfold toggleAndSave. cbn [fst snd]. cbv zeta.
  rewrite Hempty. cbn. repeat split.
  unfold toggleFavorite in Hempty.
  destruct (includes favorites poiId) eqn:E.
  - now apply includes_In.
  - destruct favorites; [contradiction|discriminate].
Qed.

(** X11.  After any sequence of toggles the storage holds the current
    favourites whenever these are not empty, and is never an empty array
    unless it was one before. *)
Theorem toggleAndSave_storage (poiIds : list string) (session : list string * savedFavorites) :
  let final := fold_left (fun s poiId => toggleAndSave poiId s) poiIds session in
  (poiIds <> [] -> fst final <> [] -> snd final = Saved (fst final))
  /\ (snd session <> Saved [] -> snd final <> Saved []).
Proof.
  cbv zeta. revert session.
  induction poiIds as [|poiId poiIds IH]; intros session; simpl.
  - split; [intros Hne; now elim Hne|easy].
  - destruct (IH (toggleAndSave poiId session)) as [IHsync IHempty].
    assert (Hstep : (fst (toggleAndSave poiId session) <> [] ->
                     snd (toggleAndSave poiId session)
                     = Saved (fst (toggleAndSave poiId session)))
                    /\ (snd session <> Saved [] ->
                        snd (toggleAndSave poiId session) <> Saved [])).
    { unfold toggleAndSave, saveFavorites. cbn [fst snd]. cbv zeta.
      destruct (toggleFavorite poiId (fst session)) as [|x l]; simpl.
      - split; [intros Hne; now elim Hne|easy].
      - split; [reflexivity|discriminate]. }
    destruct Hstep as [Hsync Hempty].
    split.
    + intros _ Hfinal. destruct poiIds as [|next poiIds].
      * simpl in *. now apply Hsync.
      * apply IHsync; [discriminate|exact Hfinal].
    + intros Hstart. apply IHempty, Hempty, Hstart.
Qed.

(** X12.  Clicks on the stars of POI cards never make the empty string a
    favourite; so a POI without an id, which the scoring looks up under the
    empty string, is never marked as favourite. *)
Theorem clickStar_never_marks_unidentified {num : Type} `{JsNumber num}
    (clicked : list PoiResponse) (favorites : list string)
    (poi : PoiResponse) (startRoute endRoute : completion (ActionState num)) :
  ~ In ""%string favorites ->
  osm_id poi = None ->
  let favorites' := fold_left (fun favs clickedPoi => clickStar clickedPoi favs)
                              clicked favorites in
  ~ In ""%string favorites'
  /\ isFavorite (withTravelTimes favorites' poi startRoute endRoute) <> Some true.
Proof.
  intros Hstart Hid. cbv zeta.
  assert (Hinv : ~ In ""%string
                   (fold_left (fun favs clickedPoi => clickStar clickedPoi favs)
                              clicked favorites)).
  { revert favorites Hstart.
    induction clicked as [|c clicked IH]; intros favorites Hstart; simpl; [exact Hstart|].
    apply IH. unfold clickStar.
    destruct (osm_id c) as [id|]; [|exact Hstart].
    destruct (String.eqb_spec id "") as [-> | Hne]; [exact Hstart|].
    rewrite In_toggleFavorite. intros [[Heq _] | [_ Hin]]; [congruence|contradiction]. }
  split; [exact Hinv|].
  unfold withTravelTimes.
  destruct startRoute as [s|], endRoute as [e|]; cbn; try discriminate.
  rewrite Hid, (includes_not_In _ _ Hinv). discriminate.
Qed.

Lemma toggleFavorite_twice_witness :
  NoDup (toggleFavorite "a" ["a"; "b"]%string)
  /\ Permutation ["a"; "b"]%string
       (toggleFavorite "a" (toggleFavorite "a" ["a"; "b"]%string))
  /\ (~ In "a"%string ["a"; "b"]%string ->
      toggleFavorite "a" (toggleFavorite "a" ["a"; "b"]%string) = ["a"; "b"]%string)
  /\ (In "a"%string ["a"; "b"]%string ->
      toggleFavorite "a" (toggleFavorite "a" ["a"; "b"]%string)
      = filter (fun id => negb (String.eqb id "a")) ["a"; "b"]%string ++ ["a"%string]).
Proof.
  refine (@toggleFavorite_twice "a" ["a"; "b"]%string _).
  repeat constructor; simpl; intuition discriminate.
Defined.

Lemma toggleAndSave_last_favourite_witness :
  toggleAndSave "a" (["a"%string], Saved ["a"%string]) = ([], Saved ["a"%string])
  /\ loadFavorites (snd (toggleAndSave "a" (["a"%string], Saved ["a"%string]))) []
     = ["a"%string]
  /\ In "a"%string ["a"%string].
Proof.
  refine (@toggleAndSave_last_favourite "a" ["a"%string] _ _).
  - discriminate.
  - reflexivity.
Defined.

Lemma clickStar_never_marks_unidentified_witness :
  ~ In ""%string (fold_left (fun favs clickedPoi => clickStar clickedPoi favs)
                            [bakery; cafe "x"] [])
  /\ isFavorite (withTravelTimes
                   (fold_left (fun favs clickedPoi => clickStar clickedPoi favs)
                              [bakery; cafe "x"] [])
                   (cafe "x") (routeAnswer 600 1000) (routeAnswer 900 2000))
     <> Some true.
Proof.
  refine (@clickStar_never_marks_unidentified float _ [bakery; cafe "x"] []
            (cafe "x") (routeAnswer 600 1000) (routeAnswer 900 2000) _ eq_refl).
  intros [].
Defined.

(** * More on scoring and ranking *)

Section ScoringFacts.
Context {num : Type} `{JsNumber num}.

Variable localeCompare : string -> string -> num.

(** X13.  Scoring loses no POI and keeps the order: whatever the route
    lookups come to, failures and exceptions included, the scored list
    carries the POIs that were given, one for one. *)
Theorem calculateTravelTimes_keeps_pois (favorites : list string)
    (routeFromStart routeToEnd : PoiResponse -> completion (ActionState num))
    (pois : list PoiResponse) :
  map (@response num) (calculateTravelTimes favorites routeFromStart routeToEnd pois)
  = pois.
Proof.
  unfold calculateTravelTimes. rewrite map_map.
  rewrite <- (map_id pois) at 2. apply map_ext.
  intros poi. unfold withTravelTimes.
  now destruct (routeFromStart poi), (routeToEnd poi).
Qed.

(** X14.  Every POI of the pipeline's output is one of the input, belongs
    to the selected category unless the tab is [all], and is a favourite
    when only favourites are shown. *)
Theorem sortedAndFilteredPois_respects_filters activeTab maxTimeDifference
    showOnlyFavorites sortBy (pois : list (PoiWithTravelTimes num))
    (poi : PoiWithTravelTimes num) :
  In poi (sortedAndFilteredPois localeCompare activeTab maxTimeDifference
            showOnlyFavorites sortBy pois) ->
  In poi pois
  /\ (activeTab = all \/ getPoiCategory (type (response poi)) = activeTab)
  /\ (showOnlyFavorites = true -> isFavorite poi = Some true).
Proof.
  intros Hin. apply sortedAndFilteredPois_In in Hin. destruct Hin as [Hin Hkeep].
  split; [exact Hin|]. unfold keepPoi in Hkeep.
  assert (Heqb : forall a b, FilterOption_eqb a b = true -> a = b)
    by (intros [] []; simpl; congruence).
  destruct (FilterOption_eqb activeTab all) eqn:Etab;
    destruct (FilterOption_eqb (getPoiCategory (type (response poi))) activeTab) eqn:Ecat;
    simpl in Hkeep; try discriminate;
    (split; [solve [left; now apply Heqb | right; now apply Heqb]|]);
    intros ->;
    destruct (match travelTimeDifference poi with Some _ => _ | None => _ end);
    try discriminate;
    destruct (isFavorite poi) as [[|]|]; simpl in Hkeep; congruence.
Qed.

End ScoringFacts.

Section ScoringReals.
Local Open Scope R_scope.

Variable localeCompare : string -> string -> R.

Implicit Types (poi : PoiWithTravelTimes R) (pois : list (PoiWithTravelTimes R)).

(** X15.  The two scores do not depend on which party is called the start:
    with the two route answers exchanged, the total time and the time
    difference are the same. *)
Theorem withTravelTimes_symmetric (favorites : list string) (response : PoiResponse)
    (startRoute endRoute : completion (ActionState R)) :
  totalTravelTime (withTravelTimes favorites response startRoute endRoute)
  = totalTravelTime (withTravelTimes favorites response endRoute startRoute)
  /\ travelTimeDifference (withTravelTimes favorites response startRoute endRoute)
     = travelTimeDifference (withTravelTimes favorites response endRoute startRoute).
Proof.
  unfold withTravelTimes.
  destruct startRoute as [s|], endRoute as [e|]; cbn; try (split; reflexivity).
  destruct (if isSuccess s then _ else _) as [a|],
    (if isSuccess e then _ else _) as [b|]; try (split; reflexivity).
  split; f_equal; [apply Rplus_comm|apply Rabs_minus_sym].
Qed.

(** X16.  For travel times that are not negative the time difference lies
    between zero and the total time, and it is zero exactly when the two
    times are equal. *)
Theorem withTravelTimes_difference_range (favorites : list string)
    (response : PoiResponse) (startRoute endRoute : completion (ActionState R))
    (fromStart fromEnd : R) :
  travelTimeFromStart (withTravelTimes favorites response startRoute endRoute)
  = Some fromStart ->
  travelTimeFromEnd (withTravelTimes favorites response startRoute endRoute)
  = Some fromEnd ->
  0 <= fromStart -> 0 <= fromEnd ->
  exists difference total,
    travelTimeDifference (withTravelTimes favorites response startRoute endRoute)
    = Some difference
    /\ totalTravelTime (withTravelTimes favorites response startRoute endRoute)
       = Some total
    /\ 0 <= difference <= total
    /\ (difference = 0 <-> fromStart = fromEnd).
Proof.
  unfold withTravelTimes.
  destruct startRoute as [s|], endRoute as [e|]; cbn; try discriminate.
  destruct (if isSuccess s then _ else _) as [a|],
    (if isSuccess e then _ else _) as [b|]; try discriminate.
  intros Ha Hb Hstart Hend. injection Ha as ->. injection Hb as ->.
  exists (Rabs (fromEnd - fromStart)), (fromStart + fromEnd).
  repeat split; unfold Rabs in *; destruct (Rcase_abs (fromEnd - fromStart)); lra.
Qed.

Section StableSort.
Variables (A : Type) (key : A -> R) (comparator : A -> A -> R).
Hypothesis comparator_key : forall a b, comparator a b = key a - key b.

(** Inserting moves an element only past elements of a smaller key. *)
Lemma insertBy_filter_key (value : R) (x : A) (l : list A) :
  filter (keyIs key value) (insertBy comparator x l)
  = filter (keyIs key value) (x :: l).
Proof.
  induction l as [|y l IH]; [reflexivity|].
  cbn [insertBy]. change (gt (comparator x y) (lit 0)) with (Rgtb (comparator x y) 0).
  destruct (Rgtb (comparator x y) 0) eqn:Etest; [|reflexivity].
  apply Rgtb_true in Etest. rewrite comparator_key in Etest.
  cbn [filter] in *. rewrite IH. unfold keyIs.
  destruct (Req_dec_T (key x) value), (Req_dec_T (key y) value); try reflexivity.
  lra.
Qed.

Lemma sort_filter_key (value : R) (l : list A) :
  filter (keyIs key value) (sort comparator l) = filter (keyIs key value) l.
Proof.
  induction l as [|x l IH]; [reflexivity|].
  cbn [sort fold_right]. fold (sort comparator l).
  rewrite insertBy_filter_key. cbn [filter]. now rewrite IH.
Qed.

(** Sorting leaves a sorted list as it is. *)
Lemma sort_of_sorted (l : list A) :
  StronglySorted (ascendingBy key) l -> sort comparator l = l.
Proof.
  induction 1 as [|x l Hsorted IH Hhead]; [reflexivity|].
  cbn [sort fold_right]. fold (sort comparator l). rewrite IH.
  destruct l as [|y l]; [reflexivity|].
  cbn [insertBy]. change (gt (comparator x y) (lit 0)) with (Rgtb (comparator x y) 0).
  assert (Etest : Rgtb (comparator x y) 0 = false).
  { apply Rgtb_false. rewrite comparator_key.
    inversion Hhead as [|? ? Hxy _]; subst. unfold ascendingBy in Hxy. lra. }
  now rewrite Etest.
Qed.

End StableSort.

(** X17.  Sorting by a numeric option is stable: the POIs whose key, read
    as zero when absent, has a given value stand in the output in the order
    they had in the input. *)
Theorem sort_stable sortBy (value : R) pois :
  sortBy <> name_ ->
  filter (keyIs (fun poi => orZero (sortKey sortBy poi)) value)
         (sort (comparePois localeCompare sortBy) pois)
  = filter (keyIs (fun poi => orZero (sortKey sortBy poi)) value) pois.
Proof.
  intros Hkey. apply sort_filter_key.
  intros a b. now apply comparePois_key.
Qed.

Lemma filter_all {A : Type} (f : A -> bool) (l : list A) :
  Forall (fun a => f a = true) l -> filter f l = l.
Proof.
  induction 1 as [|x l Hx _ IH]; [reflexivity|].
  simpl. now rewrite Hx, IH.
Qed.

(** X18.  For a numeric sort option the pipeline is idempotent: filtering
    and sorting its own output again changes nothing. *)
Theorem sortedAndFilteredPois_idempotent activeTab maxTimeDifference
    showOnlyFavorites sortBy pois :
  sortBy <> name_ ->
  sortedAndFilteredPois localeCompare activeTab maxTimeDifference showOnlyFavorites
    sortBy
    (sortedAndFilteredPois localeCompare activeTab maxTimeDifference
       showOnlyFavorites sortBy pois)
  = sortedAndFilteredPois localeCompare activeTab maxTimeDifference
      showOnlyFavorites sortBy pois.
Proof.
  intros Hkey.
  set (out := sortedAndFilteredPois localeCompare activeTab maxTimeDifference
                showOnlyFavorites sortBy pois).
  unfold sortedAndFilteredPois at 1.
  rewrite filter_all.
  - apply sort_of_sorted with (key := fun poi => orZero (sortKey sortBy poi)).
    + intros a b. now apply comparePois_key.
    + unfold out, sortedAndFilteredPois. apply sort_sorted.
      intros a b. now apply comparePois_key.
  - apply Forall_forall. intros poi Hin.
    now apply sortedAndFilteredPois_In in Hin.
Qed.

End ScoringReals.

Lemma sortedAndFilteredPois_respects_filters_witness :
  In (scoredCafe "a" None (Some 100%float)) [scoredCafe "a" None (Some 100%float)]
  /\ (food = all \/ getPoiCategory (type (response (scoredCafe "a" None (Some 100%float)))) = food)
  /\ (false = true -> isFavorite (scoredCafe "a" None (Some 100%float)) = Some true).
Proof.
  refine (@sortedAndFilteredPois_respects_filters float _ sameName food Max5 false
            timeDifference [scoredCafe "a" None (Some 100%float)]
            (scoredCafe "a" None (Some 100%float)) _).
  vm_compute. left. reflexivity.
Defined.

Lemma withTravelTimes_difference_range_witness :
  exists difference total : R,
    travelTimeDifference
      (withTravelTimes [] (cafe "a") (routeAnswerR 600 1000) (routeAnswerR 900 2000))
    = Some difference
    /\ totalTravelTime
         (withTravelTimes [] (cafe "a") (routeAnswerR 600 1000) (routeAnswerR 900 2000))
       = Some total
    /\ (0 <= difference <= total)%R
    /\ (difference = 0%R <-> 600%R = 900%R).
Proof.
  refine (@withTravelTimes_difference_range [] (cafe "a") (routeAnswerR 600 1000)
            (routeAnswerR 900 2000) 600%R 900%R eq_refl eq_refl _ _); lra.
Defined.

Lemma sort_stable_witness :
  filter (keyIs (fun poi => orZero (sortKey distanceFromStart_ poi)) 0)
         (sort (comparePois sameNameR distanceFromStart_)
               [scoredCafeR "near" (Some 5%R); scoredCafeR "u" None; scoredCafeR "v" None])
  = filter (keyIs (fun poi => orZero (sortKey distanceFromStart_ poi)) 0)
           [scoredCafeR "near" (Some 5%R); scoredCafeR "u" None; scoredCafeR "v" None].
Proof.
  refine (@sort_stable sameNameR distanceFromStart_ 0%R _ _).
  discriminate.
Defined.

Lemma sortedAndFilteredPois_idempotent_witness :
  sortedAndFilteredPois sameNameR all Max5 false distanceFromStart_
    (sortedAndFilteredPois sameNameR all Max5 false distanceFromStart_
       [scoredCafeR "near" (Some 5%R); scoredCafeR "u" None])
  = sortedAndFilteredPois sameNameR all Max5 false distanceFromStart_
      [scoredCafeR "near" (Some 5%R); scoredCafeR "u" None].
Proof.
  refine (@sortedAndFilteredPois_idempotent sameNameR all Max5 false
            distanceFromStart_ _ _).
  discriminate.
Defined.

(** * The map wrapper *)

Section MapWrapperFacts.
Context {num : Type} `{JsNumber num} `{JsFinite num}.

(** X19.  When zero is a finite number, [Map] hands only finite
    coordinates to [MapComponent], whatever it was given.  Every coordinate
    that is finite is handed on as it is (so properties that are all finite
    are unchanged); a start or end coordinate that is not finite becomes
    [0], a midpoint coordinate that is not finite becomes the start
    coordinate handed on, and an alternate midpoint coordinate that is not
    finite becomes the midpoint coordinate handed on. *)
Theorem Map_finite (props : MapProps num) :
  Number_isFinite (lit 0) = true ->
  allFinite (Map props) = true
  /\ (allFinite props = true -> Map props = props)
  /\ ((Number_isFinite (startLat props) = true -> startLat (Map props) = startLat props)
      /\ (Number_isFinite (startLng props) = true ->
          startLng (Map props) = startLng props)
      /\ (Number_isFinite (endLat props) = true -> endLat (Map props) = endLat props)
      /\ (Number_isFinite (endLng props) = true -> endLng (Map props) = endLng props)
      /\ (Number_isFinite (midpointLat props) = true ->
          midpointLat (Map props) = midpointLat props)
      /\ (Number_isFinite (midpointLng props) = true ->
          midpointLng (Map props) = midpointLng props)
      /\ (Number_isFinite (alternateMidpointLat props) = true ->
          alternateMidpointLat (Map props) = alternateMidpointLat props)
      /\ (Number_isFinite (alternateMidpointLng props) = true ->
          alternateMidpointLng (Map props) = alternateMidpointLng props))
  /\ ((Number_isFinite (startLat props) = false -> startLat (Map props) = lit 0)
      /\ (Number_isFinite (startLng props) = false -> startLng (Map props) = lit 0)
      /\ (Number_isFinite (endLat props) = false -> endLat (Map props) = lit 0)
      /\ (Number_isFinite (endLng props) = false -> endLng (Map props) = lit 0)
      /\ (Number_isFinite (midpointLat props) = false ->
          midpointLat (Map props) = startLat (Map props))
      /\ (Number_isFinite (midpointLng props) = false ->
          midpointLng (Map props) = startLng (Map props))
      /\ (Number_isFinite (alternateMidpointLat props) = false ->
          alternateMidpointLat (Map props) = midpointLat (Map props))
      /\ (Number_isFinite (alternateMidpointLng props) = false ->
          alternateMidpointLng (Map props) = midpointLng (Map props))).
Proof.
  intros Hzero. split; [|split; [|split]].
  - unfold allFinite, Map. cbv zeta.
    cbn [startLat startLng endLat endLng midpointLat midpointLng
         alternateMidpointLat alternateMidpointLng].
    destruct (Number_isFinite (startLat props)) eqn:E1,
      (Number_isFinite (startLng props)) eqn:E2,
      (Number_isFinite (endLat props)) eqn:E3,
      (Number_isFinite (endLng props)) eqn:E4,
      (Number_isFinite (midpointLat props)) eqn:E5,
      (Number_isFinite (midpointLng props)) eqn:E6,
      (Number_isFinite (alternateMidpointLat props)) eqn:E7,
      (Number_isFinite (alternateMidpointLng props)) eqn:E8;
      rewrite ?E1, ?E2, ?E3, ?E4, ?E5, ?E6, ?E7, ?E8, ?Hzero; reflexivity.
  - unfold allFinite. rewrite !andb_true_iff.
    intros [[[[[[[E1 E2] E3] E4] E5] E6] E7] E8].
    unfold Map. cbv zeta.
    rewrite E1, E2, E3, E4, E5, E6, E7, E8. now destruct props.
  - unfold Map. cbv zeta.
    cbn [startLat startLng endLat endLng midpointLat midpointLng
         alternateMidpointLat alternateMidpointLng].
    repeat split; intros ->; reflexivity.
  - unfold Map. cbv zeta.
    cbn [startLat startLng endLat endLng midpointLat midpointLng
         alternateMidpointLat alternateMidpointLng].
    repeat split; intros ->; reflexivity.
Qed.

End MapWrapperFacts.

(** The witness of X19, on binary64 numbers: the midpoint latitude, not a
    number, becomes the start latitude 40 (not 0); the alternate midpoint
    becomes the midpoint handed on, (40, 5). *)
Lemma Map_finite_witness :
  allFinite (Map brokenProps) = true
  /\ startLat (Map brokenProps) = 40%float
  /\ startLng (Map brokenProps) = 0%float
  /\ midpointLat (Map brokenProps) = 40%float
  /\ midpointLng (Map brokenProps) = 5%float
  /\ alternateMidpointLat (Map brokenProps) = 40%float
  /\ alternateMidpointLng (Map brokenProps) = 5%float.
Proof.
  assert (Hzero : Number_isFinite (lit 0 : float) = true) by (vm_compute; reflexivity).
  destruct (@Map_finite float _ _ brokenProps Hzero)
    as (Hfinite & _ & Hkept & Hreplaced).
  destruct Hkept as (HstartLat & _ & _ & _ & _ & HmidLng & _ & _).
  destruct Hreplaced as (_ & HstartLng & _ & _ & HmidLat & _ & HaltLat & HaltLng).
  specialize (HstartLat eq_refl). specialize (HmidLng eq_refl).
  specialize (HstartLng eq_refl). specialize (HmidLat eq_refl).
  specialize (HaltLat eq_refl). specialize (HaltLng eq_refl).
  exact (conj Hfinite
          (conj HstartLat
             (conj HstartLng
                (conj (eq_trans HmidLat HstartLat)
                   (conj HmidLng
                      (conj (eq_trans HaltLat (eq_trans HmidLat HstartLat))
                         (eq_trans HaltLng HmidLng))))))).
Defined.

(** * Durations and distances as text, over the reals *)

Section FormattingFacts.
Local Open Scope R_scope.

Variable toString : R -> string.
Variable toFixed : R -> nat -> string.

Lemma Rgeb_true (x y : R) : Rgeb x y = true <-> x >= y.
Proof. unfold Rgeb. destruct (Rge_dec x y); split; intros; try easy. Qed.

Lemma Rgeb_false (x y : R) : Rgeb x y = false <-> x < y.
Proof.
  unfold Rgeb. destruct (Rge_dec x y); split; intros; try easy; lra.
Qed.

(** The floor of a quotient of integers is the quotient of integer
    division. *)
Lemma Zfloor_div (a b : Z) : (0 < b)%Z -> Zfloor (IZR a / IZR b) = (a / b)%Z.
Proof.
  intros Hb. apply Zfloor_eq.
  pose proof (Z.div_mod a b ltac:(lia)) as Hdiv.
  pose proof (Z.mod_pos_bound a b Hb) as [Hlo Hhi].
  apply IZR_lt in Hb, Hhi. apply IZR_le in Hlo.
  assert (Ha : IZR a = IZR b * IZR (a / b) + IZR (a mod b))
    by (rewrite <- mult_IZR, <- plus_IZR; now f_equal).
  assert (Hinv : 0 < / IZR b) by now apply Rinv_0_lt_compat.
  assert (Hone : IZR b * / IZR b = 1) by (apply Rinv_r; lra).
  unfold Rdiv. rewrite Ha.
  replace ((IZR b * IZR (a / b) + IZR (a mod b)) * / IZR b)
    with (IZR (a / b) * (IZR b * / IZR b) + IZR (a mod b) * / IZR b) by ring.
  rewrite Hone. split; nra.
Qed.

Lemma round_integer (z : Z) : Zfloor (IZR z + / 2) = z.
Proof. apply Zfloor_eq. lra. Qed.

(** X20.  A duration that is not negative is shown through its number of
    minutes rounded to the nearest integer, split into hours and minutes
    below sixty; the hours are shown only when there is at least one. *)
Theorem formatDuration_hours_minutes (minutes : R) :
  0 <= minutes ->
  exists hours mins : Z,
    Zfloor (minutes + / 2) = (60 * hours + mins)%Z
    /\ (0 <= hours)%Z /\ (0 <= mins < 60)%Z
    /\ formatDuration toString (Some minutes)
       = if (0 <? hours)%Z
         then (toString (IZR hours) ++ "h " ++ toString (IZR mins) ++ "m")%string
         else (toString (IZR mins) ++ "m")%string.
Proof.
  intros Hpos.
  set (m := Zfloor (minutes + / 2)).
  assert (Hm : (0 <= m)%Z) by (apply Zfloor_lub; lra).
  exists (m / 60)%Z, (m mod 60)%Z.
  split; [apply Z.div_mod; lia|].
  split; [apply Z.div_pos; lia|].
  split; [apply Z.mod_pos_bound; lia|].
  unfold formatDuration. cbv zeta.
  cbn [Math_round Math_floor remainder R_JsFormat div lit gt R_JsNumber].
  fold m.
  assert (Hhours : Zfloor (IZR m / 60) = (m / 60)%Z) by (apply Zfloor_div; lia).
  assert (Htrunc : Ztrunc (IZR m / 60) = (m / 60)%Z).
  { unfold Ztrunc. destruct (Rle_dec 0 (IZR m / 60)) as [_ | Hneg]; [exact Hhours|].
    elim Hneg. apply IZR_le in Hm. lra. }
  rewrite Hhours, Htrunc.
  replace (IZR m - 60 * IZR (m / 60)) with (IZR (m mod 60)).
  2:{ rewrite Z.mod_eq by lia. rewrite minus_IZR, mult_IZR. reflexivity. }
  rewrite round_integer.
  destruct (0 <? m / 60)%Z eqn:Ehours.
  - apply Z.ltb_lt in Ehours. apply IZR_lt in Ehours.
    now rewrite (proj2 (Rgtb_true _ _) Ehours).
  - apply Z.ltb_ge in Ehours. apply IZR_le in Ehours.
    now rewrite (proj2 (Rgtb_false _ _) Ehours).
Qed.

Lemma decimal_mile : decimal 621371 9 = 621371 / 1000000000.
Proof. reflexivity. Qed.

Lemma decimal_tenth : decimal 1 1 = 1 / 10.
Proof. reflexivity. Qed.

(** X21.  A distance that is not negative is shown in miles with one
    decimal (the same way from a tenth of a mile upwards), and below a
    tenth of a mile in feet, as a whole number between 0 and 528. *)
Theorem formatDistance_miles_or_feet (meters : R) :
  0 <= meters ->
  let miles := meters * (621371 / 1000000000) in
  (miles >= 1 / 10
   /\ formatDistance toString toFixed (Some meters) = (toFixed miles 1 ++ " mi")%string)
  \/ (miles < 1 / 10
      /\ exists feet : Z,
           (0 <= feet <= 528)%Z
           /\ formatDistance toString toFixed (Some meters)
              = (toString (IZR feet) ++ " ft")%string).
Proof.
  intros Hpos miles.
  unfold formatDistance. cbv zeta.
  cbn [geb Math_round R_JsFormat mul lit R_JsNumber].
  rewrite decimal_mile, decimal_tenth. fold miles.
  destruct (Rgeb miles 10) eqn:Eten.
  - left. apply Rgeb_true in Eten. split; [lra|reflexivity].
  - destruct (Rgeb miles (1 / 10)) eqn:Etenth.
    + left. apply Rgeb_true in Etenth. split; [exact Etenth|reflexivity].
    + right. apply Rgeb_false in Etenth. split; [exact Etenth|].
      exists (Zfloor (miles * 5280 + / 2)). split; [|reflexivity].
      assert (Hmiles : 0 <= miles) by (unfold miles; lra).
      split.
      * apply Zfloor_lub. lra.
      * apply Z.lt_succ_r, lt_IZR.
        pose proof (Zfloor_bound (miles * 5280 + / 2)) as [Hlo _].
        change (Z.succ 528) with 529%Z. lra.
Qed.

(** X22.  On a card a travel time of zero seconds is shown as [0m], not
    as missing: the falsy zero is handed to [formatDuration] as it is, and
    only an absent time gives [N/A]. *)
Theorem formatDuration_minutesShown (seconds : option R) :
  (seconds = None ->
   formatDuration toString (minutesShown seconds) = "N/A"%string)
  /\ (seconds = Some 0 ->
      formatDuration toString (minutesShown seconds) = (toString 0 ++ "m")%string)
  /\ (forall s, seconds = Some s -> s <> 0 ->
      formatDuration toString (minutesShown seconds)
      = formatDuration toString (Some (s / 60))).
Proof.
  repeat split.
  - now intros ->.
  - intros ->. unfold minutesShown.
    cbn [truthy R_JsNumber]. unfold Rtruthy.
    destruct (Req_dec_T 0 0) as [_ | Hne]; [|now elim Hne].
    unfold formatDuration. cbv zeta.
    cbn [Math_round Math_floor remainder R_JsFormat div lit gt R_JsNumber].
    replace (0 + / 2) with (IZR 0 + / 2) by reflexivity.
    rewrite round_integer.
    replace (0 / 60) with 0 by lra.
    assert (Htrunc : Ztrunc 0 = 0%Z).
    { unfold Ztrunc. destruct (Rle_dec 0 0); [apply ZfloorZ|lra]. }
    rewrite ZfloorZ, Htrunc.
    replace (0 - 60 * 0) with (IZR 0) by (cbn; lra).
    rewrite round_integer.
    now rewrite (proj2 (Rgtb_false 0 0) (Rle_refl 0)).
  - intros s -> Hs. unfold minutesShown. cbn [truthy R_JsNumber].
    now rewrite (proj2 (Rtruthy_true s) Hs).
Qed.

End FormattingFacts.

Lemma formatDuration_hours_minutes_witness :
  exists hours mins : Z,
    Zfloor (125 + / 2) = (60 * hours + mins)%Z
    /\ (0 <= hours)%Z /\ (0 <= mins < 60)%Z
    /\ formatDuration integerText (Some 125%R)
       = if (0 <? hours)%Z
         then (integerText (IZR hours) ++ "h " ++ integerText (IZR mins) ++ "m")%string
         else (integerText (IZR mins) ++ "m")%string.
Proof.
  refine (@formatDuration_hours_minutes integerText 125%R _). lra.
Defined.

Lemma formatDistance_miles_or_feet_witness :
  let miles := (100 * (621371 / 1000000000))%R in
  ((miles >= 1 / 10)%R
   /\ formatDistance integerText (fun x _ => integerText x) (Some 100%R)
      = (integerText miles ++ " mi")%string)
  \/ ((miles < 1 / 10)%R
      /\ exists feet : Z,
           (0 <= feet <= 528)%Z
           /\ formatDistance integerText (fun x _ => integerText x) (Some 100%R)
              = (integerText (IZR feet) ++ " ft")%string).
Proof.
  refine (@formatDistance_miles_or_feet integerText (fun x _ => integerText x) 100%R _).
  lra.
Defined.

(** * The midpoint marker and the polyline *)

Section MarkerFacts.
Context {num : Type} `{JsNumber num} `{JsMath num}.


End MarkerFacts.

(** * Saved locations *)

Section LocationsFacts.
Import LocationsActions.

Variables (InsertLocation PartialInsertLocation SelectLocation Search : Type).
Variable insertReturning : InsertLocation -> completion (list SelectLocation).
Variable findMany : string -> completion (list SelectLocation).
Variable findFirst : string -> completion (option SelectLocation).
Variable updateReturning :
  string -> PartialInsertLocation -> completion (list SelectLocation).
Variable getSearchesAction : string -> completion (ActionState (list Search)).

(** X24.  Looking up an id that has no row is reported as a failure, and a
    success of the lookup always carries the row; an update (or an insert)
    that returns no row is reported as a success without data, and fails
    only when the database call is rejected. *)
Theorem location_actions_missing_row (id : string) (changes : PartialInsertLocation)
    (location : InsertLocation) :
  (isSuccess (getLocationAction findFirst id) = true
   <-> exists row, findFirst id = Normal (Some row)
                   /\ data (getLocationAction findFirst id) = Some row)
  /\ (isSuccess (updateLocationAction updateReturning id changes) = false
      <-> updateReturning id changes = Throw)
  /\ (isSuccess (updateLocationAction updateReturning id changes) = true
      /\ data (updateLocationAction updateReturning id changes) = None
      <-> updateReturning id changes = Normal [])
  /\ (isSuccess (createLocationAction insertReturning location) = true
      /\ data (createLocationAction insertReturning location) = None
      <-> insertReturning location = Normal []).
Proof.
  unfold getLocationAction, updateLocationAction, createLocationAction.
  split; [|split; [|split]].
  - destruct (findFirst id) as [[row|]|]; simpl.
    + split; [intros _; now exists row|reflexivity].
    + split; [discriminate|intros (row & Hrow & _); discriminate].
    + split; [discriminate|intros (row & Hrow & _); discriminate].
  - destruct (updateReturning id changes); simpl; split; congruence.
  - destruct (updateReturning id changes) as [[|row rows]|]; simpl;
      split; try intros [Hs Hd]; try split; congruence.
  - destruct (insertReturning location) as [[|row rows]|]; simpl;
      split; try intros [Hs Hd]; try split; congruence.
Qed.

(** X25.  Loading the user's data always ends with the loading flag
    cleared.  For a signed-in user whose searches are answered, the saved
    locations shown are the rows found, and none when the database call is
    rejected: that failure is shown as an empty list. *)
Theorem loadUserData_locations (userId : option string)
    (state : list SelectLocation * list Search * bool) :
  snd (loadUserData findMany getSearchesAction userId state) = false
  /\ (forall user searchesRes,
        userId = Some user -> user <> ""%string ->
        getSearchesAction user = Normal searchesRes ->
        fst (fst (loadUserData findMany getSearchesAction userId state))
        = match findMany user with
          | Normal rows => rows
          | Throw => []
          end).
Proof.
  destruct state as [[locations searches] isLoading].
  split.
  - unfold loadUserData.
    destruct userId as [user|]; [|reflexivity].
    destruct (String.eqb user ""); [reflexivity|].
    now destruct (getSearchesAction user).
  - intros user searchesRes -> Huser Hsearches. unfold loadUserData.
    rewrite (proj2 (String.eqb_neq user "") Huser), Hsearches.
    unfold getLocationsAction. now destruct (findMany user).
Qed.

End LocationsFacts.
